(** * Workspace Manager: offline sync, local persistence and session tracking

    A shallow embedding of the client-side sketches of
    [TECHNICAL_CHALLENGES.md] ([SyncService], [PayloadPersistenceService],
    [usePersistentState], [MockElectronStore]) and of the server-side
    session code ([plugins/sessionTracking/index.ts], [server.ts],
    [middleware/trackActivity]), with the properties the specification
    states about them. *)

From stdpp Require Import gmap strings list.
From Stdlib Require Import ZArith Lia.

Local Open Scope Z_scope.
Local Open Scope string_scope.

(** ** JavaScript values shared by the client and the server code *)

Module Js.

(** A computation either returns a value or throws [Error(msg)]. *)
Inductive outcome (A : Type) : Type :=
| Ok (a : A)
| Throw (msg : string).
Arguments Ok {A} a.
Arguments Throw {A} msg.

(** The value held by a date-typed property, seen through what the code does
    with it: test it for truthiness and hand it to [new Date(..)].
    [DateOf t] is a [Date] object or a date string whose time value is [t]
    milliseconds; [Unparsable] is a truthy value that [new Date] turns into
    an Invalid Date. *)
Inductive DateField : Type :=
| Undefined
| Null
| DateOf (t : Z)
| Unparsable.

Definition truthy (d : DateField) : bool :=
  match d with
  | Undefined | Null => false
  | DateOf _ | Unparsable => true
  end.

(** [new Date(v).getTime()]; [None] stands for [NaN].  [new Date(null)] is
    the epoch, [new Date(undefined)] is an Invalid Date. *)
Definition getTime (d : DateField) : option Z :=
  match d with
  | Undefined => None
  | Null => Some 0
  | DateOf t => Some t
  | Unparsable => None
  end.

(** A JavaScript number that is an integer or [NaN]. *)
Inductive Number : Type :=
| Num (z : Z)
| NaN.

(** [a - b] on time values. *)
Definition minus (a b : option Z) : option Z :=
  match a, b with
  | Some x, Some y => Some (x - y)
  | _, _ => None
  end.

(** [a > b]: false as soon as one side is [NaN]. *)
Definition gt (a b : option Z) : bool :=
  match a, b with
  | Some x, Some y => bool_decide (y < x)
  | _, _ => false
  end.

(** [Math.round(n / d)] for an integer [n] and a positive integer [d]:
    the nearest integer, a tie going up.  The quotient is taken exactly;
    for the divisor 60000 of the session hook the double that JavaScript
    computes rounds to the same integer as long as [n] is at most 2^53 in
    magnitude, and may differ beyond. *)
Definition Math_round_div (n d : Z) : Z := (2 * n + d) / (2 * d).

(** The property names every plain object inherits from
    [Object.prototype]; all are methods, except [__proto__], an accessor. *)
Definition Object_prototype_keys : list string :=
  [ "constructor"; "__proto__"; "hasOwnProperty"; "isPrototypeOf";
    "propertyIsEnumerable"; "toLocaleString"; "toString"; "valueOf";
    "__defineGetter__"; "__defineSetter__"; "__lookupGetter__";
    "__lookupSetter__" ].

Definition inherited (key : string) : bool :=
  bool_decide (key ∈ Object_prototype_keys).

(** What [obj[key]] yields when it is not [undefined], on a plain object
    whose own properties hold values of [V]: an own value, or the member of
    [Object.prototype] of that name. *)
Inductive Got (V : Type) : Type :=
| Val (v : V)
| Inherited (key : string).
Arguments Val {V} v.
Arguments Inherited {V} key.

End Js.

(** ** SyncService (TECHNICAL_CHALLENGES.md, section 4) *)

Module SyncService.

(** The object handed to [addToQueue]: [{ type, data }]. *)
Record Operation : Type := mkOperation {
  op_type : string;
  op_data : string;
}.

(** A queue entry: [{ ...operation, timestamp: Date.now(), id: crypto.randomUUID() }]. *)
Record QueuedOperation : Type := mkQueued {
  q_type : string;
  q_data : string;
  q_timestamp : Z;
  q_id : string;
}.

(** The service object, the part of its environment it touches, and the
    control state of [processQueue], an async function: [awaiting] holds the
    operation whose [executeOperation] promise has not settled yet. *)
Record State : Type := mkState {
  queue : list QueuedOperation;
  isSyncing : bool;
  isOnline : bool;
  awaiting : option QueuedOperation;
  (** what the remote system has acknowledged, in order of acknowledgement *)
  remote : list QueuedOperation;
  (** [localStorage['sync-queue']], and whether [setItem] throws *)
  stored : list QueuedOperation;
  quotaExceeded : bool;
  console : list string;
}.

Definition with_queue (q : list QueuedOperation) (s : State) : State :=
  mkState q (isSyncing s) (isOnline s) (awaiting s) (remote s) (stored s)
          (quotaExceeded s) (console s).
Definition with_isSyncing (b : bool) (s : State) : State :=
  mkState (queue s) b (isOnline s) (awaiting s) (remote s) (stored s)
          (quotaExceeded s) (console s).
Definition with_isOnline (b : bool) (s : State) : State :=
  mkState (queue s) (isSyncing s) b (awaiting s) (remote s) (stored s)
          (quotaExceeded s) (console s).
Definition with_awaiting (a : option QueuedOperation) (s : State) : State :=
  mkState (queue s) (isSyncing s) (isOnline s) a (remote s) (stored s)
          (quotaExceeded s) (console s).
Definition with_remote (r : list QueuedOperation) (s : State) : State :=
  mkState (queue s) (isSyncing s) (isOnline s) (awaiting s) r (stored s)
          (quotaExceeded s) (console s).
Definition with_stored (r : list QueuedOperation) (s : State) : State :=
  mkState (queue s) (isSyncing s) (isOnline s) (awaiting s) (remote s) r
          (quotaExceeded s) (console s).
Definition with_quotaExceeded (b : bool) (s : State) : State :=
  mkState (queue s) (isSyncing s) (isOnline s) (awaiting s) (remote s)
          (stored s) b (console s).
Definition console_error (msg : string) (s : State) : State :=
  mkState (queue s) (isSyncing s) (isOnline s) (awaiting s) (remote s)
          (stored s) (quotaExceeded s) (console s ++ [msg]).

(** [constructor()]: empty queue, not syncing, [navigator.onLine]; and with
    it the environment of a first visit: nothing acknowledged, nothing under
    ['sync-queue'], room in the storage, an empty console. *)
Definition constructor (onLine : bool) : State :=
  mkState [] false onLine None [] [] false [].

(** The service constructed on a page that finds [leftover] under
    ['sync-queue']: the constructor neither reads nor writes the entry. *)
Definition after_reload (leftover : list QueuedOperation) (onLine : bool)
  : State :=
  with_stored leftover (constructor onLine).

(** [saveQueue()]: [try { localStorage.setItem(..) } catch { console.error }]. *)
Definition saveQueue (s : State) : State :=
  if quotaExceeded s
  then console_error "Error saving sync queue:" s
  else with_stored (queue s) s.

(** [processQueue()] up to its [await]: the guard, the flag, the head of the
    queue handed to [executeOperation]. *)
Definition processQueue (s : State) : State :=
  if negb (isOnline s) || isSyncing s || bool_decide (length (queue s) = 0%nat)
  then s
  else
    let s1 := with_isSyncing true s in
    match queue s1 with
    | operation :: _ => with_awaiting (Some operation) s1
    | [] => s1
    end.

(** [processQueue()] from the point where the awaited promise settles:
    the rest of the [try] block when it resolved, the [catch] block when it
    rejected, and the [finally] block in both cases. *)
Definition resume (resolved : bool) (s : State) : State :=
  match awaiting s with
  | None => s
  | Some operation =>
      let s1 := with_awaiting None s in
      let s2 :=
        if resolved then
          let s3 := with_remote (remote s1 ++ [operation]) s1 in
          let s4 := with_queue (tail (queue s3)) s3 in
          let s5 := saveQueue s4 in
          if bool_decide (0 < length (queue s5))%nat
          then processQueue s5
          else s5
        else console_error "Error processing sync queue:" s1 in
      with_isSyncing false s2
  end.

(** [addToQueue(operation)]; [now] and [uuid] are what [Date.now()] and
    [crypto.randomUUID()] answer. *)
Definition enqueued (operation : Operation) (now : Z) (uuid : string)
  : QueuedOperation :=
  mkQueued (op_type operation) (op_data operation) now uuid.

Definition addToQueue (operation : Operation) (now : Z) (uuid : string)
  (s : State) : State :=
  let s1 := with_queue (queue s ++ [enqueued operation now uuid]) s in
  let s2 := saveQueue s1 in
  if isOnline s2 && negb (isSyncing s2) then processQueue s2 else s2.

(** What can happen to the service: the window's [online] and [offline]
    events, a call of [addToQueue], a direct call of [processQueue], the
    settling of the pending [executeOperation] promise, and the storage
    quota being reached or freed. *)
Inductive Event : Type :=
| Online
| Offline
| AddToQueue (operation : Operation) (now : Z) (uuid : string)
| ProcessQueue
| Settled (resolved : bool)
| Quota (exceeded : bool).

Definition step (s : State) (e : Event) : State :=
  match e with
  | Online => processQueue (with_isOnline true s)
  | Offline => with_isOnline false s
  | AddToQueue operation now uuid => addToQueue operation now uuid s
  | ProcessQueue => processQueue s
  | Settled resolved => resume resolved s
  | Quota exceeded => with_quotaExceeded exceeded s
  end.

Definition run (es : list Event) (s : State) : State := fold_left step es s.

(** The operations the events of a history put on the queue, in order. *)
Fixpoint enqueue_sequence (es : list Event) : list QueuedOperation :=
  match es with
  | [] => []
  | AddToQueue operation now uuid :: es' =>
      enqueued operation now uuid :: enqueue_sequence es'
  | _ :: es' => enqueue_sequence es'
  end.

(** A state of a service that was constructed and then lived through some
    history of events. *)
Definition reachable (s : State) : Prop :=
  exists onLine es, s = run es (constructor onLine).

(** Nothing is in flight. *)
Definition idle (s : State) : Prop := awaiting s = None.

(** While an operation is in flight the flag is up and the operation is the
    head of the queue; while nothing is in flight the flag is down. *)
Definition in_flight_is_head (s : State) : Prop :=
  match awaiting s with
  | Some op => isSyncing s = true /\ exists rest, queue s = op :: rest
  | None => isSyncing s = false
  end.

(** [n] triggers in a row, each one followed by the success of the
    execution it starts. *)
Fixpoint successful_triggers (n : nat) : list Event :=
  match n with
  | O => []
  | S n' => ProcessQueue :: Settled true :: successful_triggers n'
  end.

(** The three operations of the end-to-end scenario. *)
Definition create_task_A : Operation := mkOperation "create" "task A".
Definition update_task_A : Operation := mkOperation "update" "task A".
Definition delete_task_A : Operation := mkOperation "delete" "task A".

Definition offline_then_online : list Event :=
  [ AddToQueue create_task_A 1 "op-1";
    AddToQueue update_task_A 2 "op-2";
    AddToQueue delete_task_A 3 "op-3";
    Online ].

End SyncService.

(** ** Local persistence (TECHNICAL_CHALLENGES.md, sections 2 and 3) *)

Module LocalStore.
Import Js.

(** The browser's [localStorage]: its items, and the two ways it fails.
    Every access throws when the page is denied storage; [setItem] also
    throws once the quota is exhausted. *)
Record WebStorage : Type := mkStorage {
  items : gmap string string;
  denied : bool;
  full : bool;
}.

Definition getItem (st : WebStorage) (key : string) : outcome (option string) :=
  if denied st then Throw "SecurityError" else Ok (items st !! key).

Definition setItem (st : WebStorage) (key value : string) : outcome WebStorage :=
  if denied st then Throw "SecurityError"
  else if full st then Throw "QuotaExceededError"
  else Ok (mkStorage (<[key := value]> (items st)) (denied st) (full st)).

Record World : Type := mkWorld {
  localStorage : WebStorage;
  console : list string;
}.

Definition console_error (msg : string) (w : World) : World :=
  mkWorld (localStorage w) (console w ++ [msg]).

Definition with_localStorage (st : WebStorage) (w : World) : World :=
  mkWorld st (console w).

(** A string is truthy unless it is empty. *)
Definition nonempty (s : string) : bool := negb (bool_decide (s = "")).

Section usePersistentState.

(** [T] is a type of values that [Object.is] compares by what they hold. *)
Context {T : Type} `{EqDecision T}.
Variable key : string.
Variable initialValue : T.
(** [options.serialize] and [options.deserialize]; both may throw, as
    [JSON.stringify] and [JSON.parse] do. *)
Variable serialize : T -> outcome string.
Variable deserialize : string -> outcome T.

(** The initialiser handed to [useState]. *)
Definition initialState (w : World) : T * World :=
  match getItem (localStorage w) key with
  | Throw _ =>
      (initialValue, console_error ("Error reading " ++ key ++ " from storage:") w)
  | Ok None => (initialValue, w)
  | Ok (Some storedValue) =>
      if nonempty storedValue then
        match deserialize storedValue with
        | Ok v => (v, w)
        | Throw _ =>
            (initialValue,
             console_error ("Error reading " ++ key ++ " from storage:") w)
        end
      else (initialValue, w)
  end.

(** The body of the effect that depends on [state]. *)
Definition writeEffect (state : T) (w : World) : World :=
  match serialize state with
  | Throw _ => console_error ("Error writing " ++ key ++ " to storage:") w
  | Ok text =>
      match setItem (localStorage w) key text with
      | Throw _ => console_error ("Error writing " ++ key ++ " to storage:") w
      | Ok st => with_localStorage st w
      end
  end.

(** The component that uses the hook: the value of [state] and the world.
    Mounting runs the initialiser and then the effect.  [setState] takes a
    value or an updater function; when the new state is the one already
    held, React renders nothing and no effect runs; otherwise the effect,
    having [state] among its dependencies, runs after the render. *)
Definition mount (w : World) : T * World :=
  let (state, w1) := initialState w in (state, writeEffect state w1).

Definition setState (value : T + (T -> T)) (c : T * World) : T * World :=
  let state :=
    match value with
    | inl v => v
    | inr f => f (fst c)
    end in
  if decide (state = fst c) then c
  else (state, writeEffect state (snd c)).

Definition resetState (c : T * World) : T * World := setState (inl initialValue) c.

End usePersistentState.

Section MockElectronStore.

(** [store: Record<string, any>], a plain object: the map holds its own
    properties, and what it does not hold it inherits from
    [Object.prototype].  [JSON.parse] of the stored text (an object, or a
    throw), [JSON.stringify] of the store, and which values are primitives
    (neither an object nor [null]). *)
Context {V : Type}.
Variable JSON_parse : string -> outcome (gmap string V).
Variable JSON_stringify : gmap string V -> outcome string.
Variable primitive : V -> bool.

Definition loadFromLocalStorage (store : gmap string V) (w : World)
  : gmap string V * World :=
  match getItem (localStorage w) "electron-store-mock" with
  | Throw _ => (store, console_error "Failed to load from localStorage" w)
  | Ok None => (store, w)
  | Ok (Some stored) =>
      if nonempty stored then
        match JSON_parse stored with
        | Ok parsed => (parsed ∪ store, w)
        | Throw _ => (store, console_error "Failed to load from localStorage" w)
        end
      else (store, w)
  end.

(** [constructor(options)]: [{ ...options.defaults }], then the load. *)
Definition constructor (defaults : gmap string V) (w : World)
  : gmap string V * World :=
  loadFromLocalStorage defaults w.

(** [this.store[key] !== undefined ? this.store[key] : defaultValue] *)
Definition get (store : gmap string V) (key : string) (defaultValue : V)
  : Got V :=
  match store !! key with
  | Some v => Val v
  | None => if inherited key then Inherited key else Val defaultValue
  end.

Definition persist (store : gmap string V) (w : World) : World :=
  match JSON_stringify store with
  | Throw _ => console_error "Failed to persist store" w
  | Ok text =>
      match setItem (localStorage w) "electron-store-mock" text with
      | Throw _ => console_error "Failed to persist store" w
      | Ok st => with_localStorage st w
      end
  end.

(** [this.store[key] = value].  The key [__proto__], unless it is an own
    property, reaches the setter of [Object.prototype]: a primitive is
    ignored, anything else replaces the prototype of the store, where the
    model stops ([None]). *)
Definition assign (key : string) (value : V) (store : gmap string V)
  : option (gmap string V) :=
  match store !! key with
  | None =>
      if bool_decide (key = "__proto__")
      then if primitive value then Some store else None
      else Some (<[key := value]> store)
  | Some _ => Some (<[key := value]> store)
  end.

Definition set (key : string) (value : V) (c : gmap string V * World)
  : option (gmap string V * World) :=
  match assign key value (fst c) with
  | Some store => Some (store, persist store (snd c))
  | None => None
  end.

End MockElectronStore.

End LocalStore.

(** ** PayloadPersistenceService (TECHNICAL_CHALLENGES.md, section 4) *)

Module PayloadPersistenceService.
Import Js.

Record Workspace : Type := mkWorkspace {
  id : string;
  name : string;
  updatedAt : DateField;
}.

(** The service's surroundings: the local store, [navigator.onLine], what
    [payloadAPI.getWorkspace] answers for an id (a workspace, [null], or a
    throw), and the console. *)
Record Env : Type := mkEnv {
  localStore : gmap string Workspace;
  onLine : bool;
  payloadAPI_getWorkspace : string -> outcome (option Workspace);
  console : list string;
}.

(** Modelled from the spec: [LocalStorageService], whose source is missing;
    the Local Store holds the latest known copy of each entity keyed by
    entity id. *)
Definition localStore_getWorkspace (i : string) (e : Env) : option Workspace :=
  localStore e !! i.

(** Modelled from the spec: [LocalStorageService.saveWorkspace], whose source
    is missing; the copy is stored under the entity's id. *)
Definition localStore_saveWorkspace (w : Workspace) (e : Env) : Env :=
  mkEnv (<[id w := w]> (localStore e)) (onLine e) (payloadAPI_getWorkspace e)
        (console e).

Definition console_error (msg : string) (e : Env) : Env :=
  mkEnv (localStore e) (onLine e) (payloadAPI_getWorkspace e) (console e ++ [msg]).

(** [new Date(a.updatedAt) > new Date(b.updatedAt)] *)
Definition newer (a b : Workspace) : bool :=
  gt (getTime (updatedAt a)) (getTime (updatedAt b)).

Definition getWorkspace (i : string) (e : Env) : option Workspace * Env :=
  let localWorkspace := localStore_getWorkspace i e in
  if onLine e then
    match payloadAPI_getWorkspace e i with
    | Throw _ =>
        (localWorkspace, console_error "Error fetching workspace from backend:" e)
    | Ok None => (localWorkspace, e)
    | Ok (Some backendWorkspace) =>
        let backend_wins :=
          match localWorkspace with
          | None => true
          | Some l => newer backendWorkspace l
          end in
        if backend_wins
        then (Some backendWorkspace, localStore_saveWorkspace backendWorkspace e)
        else (localWorkspace, e)
    end
  else (localWorkspace, e).

End PayloadPersistenceService.

(** ** Work sessions on the server
    (plugins/sessionTracking/index.ts, middleware/trackActivity, server.ts) *)

Module Sessions.
Import Js.

Inductive Status : Type := active | paused | completed.

Global Instance Status_eq_dec : EqDecision Status.
Proof. solve_decision. Defined.

(** A document of the [users] collection, also what [req.user] holds. *)
Record User : Type := mkUser {
  u_id : string;
  u_role : string;
  u_lastActive : DateField;
}.

(** A stored document of the [sessions] collection; [user] is the id of the
    owning user ([session.user.id] of the populated document), [context] the
    JSON blob as text. *)
Record Session : Type := mkSession {
  id : string;
  user : string;
  workspace : option string;
  project : option string;
  task : option string;
  status : Status;
  notes : option string;
  startedAt : DateField;
  lastActive : DateField;
  completedAt : DateField;
  durationMinutes : option Number;
  context : option string;
}.

(** The [data] of a create or update: each property may be absent. *)
Record SessionData : Type := mkData {
  d_user : option string;
  d_status : option Status;
  d_startedAt : DateField;
  d_lastActive : DateField;
  d_completedAt : DateField;
  d_durationMinutes : option Number;
  d_context : option string;
  (** the links and the notes: absent, or given ([null] being [Some None]) *)
  d_workspace : option (option string);
  d_project : option (option string);
  d_task : option (option string);
  d_notes : option (option string);
}.

Definition no_data : SessionData :=
  mkData None None Undefined Undefined Undefined None None
         None None None None.

Definition set_user (v : string) (d : SessionData) : SessionData :=
  mkData (Some v) (d_status d) (d_startedAt d) (d_lastActive d)
         (d_completedAt d) (d_durationMinutes d) (d_context d)
         (d_workspace d) (d_project d) (d_task d) (d_notes d).
Definition set_status (v : Status) (d : SessionData) : SessionData :=
  mkData (d_user d) (Some v) (d_startedAt d) (d_lastActive d)
         (d_completedAt d) (d_durationMinutes d) (d_context d)
         (d_workspace d) (d_project d) (d_task d) (d_notes d).
Definition set_startedAt (v : DateField) (d : SessionData) : SessionData :=
  mkData (d_user d) (d_status d) v (d_lastActive d)
         (d_completedAt d) (d_durationMinutes d) (d_context d)
         (d_workspace d) (d_project d) (d_task d) (d_notes d).
Definition set_lastActive (v : DateField) (d : SessionData) : SessionData :=
  mkData (d_user d) (d_status d) (d_startedAt d) v
         (d_completedAt d) (d_durationMinutes d) (d_context d)
         (d_workspace d) (d_project d) (d_task d) (d_notes d).
Definition set_completedAt (v : DateField) (d : SessionData) : SessionData :=
  mkData (d_user d) (d_status d) (d_startedAt d) (d_lastActive d)
         v (d_durationMinutes d) (d_context d)
         (d_workspace d) (d_project d) (d_task d) (d_notes d).
Definition set_durationMinutes (v : Number) (d : SessionData) : SessionData :=
  mkData (d_user d) (d_status d) (d_startedAt d) (d_lastActive d)
         (d_completedAt d) (Some v) (d_context d)
         (d_workspace d) (d_project d) (d_task d) (d_notes d).
Definition set_context (v : string) (d : SessionData) : SessionData :=
  mkData (d_user d) (d_status d) (d_startedAt d) (d_lastActive d)
         (d_completedAt d) (d_durationMinutes d) (Some v)
         (d_workspace d) (d_project d) (d_task d) (d_notes d).

Inductive HookOperation : Type := create | update.

(** [Math.round((endTime - startTime) / 60000)] *)
Definition duration_minutes (endTime : Z) (startTime : option Z) : Number :=
  match startTime with
  | Some t => Num (Math_round_div (endTime - t) 60000)
  | None => NaN
  end.

(** [Sessions.hooks.beforeChange]; [now] is what [new Date()] answers. *)
Definition beforeChange (data : SessionData) (req_user : option User)
  (operation : HookOperation) (now : Z) : SessionData :=
  let data1 :=
    match operation with
    | create =>
        let d := set_startedAt (DateOf now) data in
        match req_user with
        | Some u => set_user (u_id u) d
        | None => d
        end
    | update => data
    end in
  let data2 := set_lastActive (DateOf now) data1 in
  if bool_decide (d_status data2 = Some completed)
     && negb (truthy (d_completedAt data2))
  then
    let data3 := set_completedAt (DateOf now) data2 in
    if truthy (d_startedAt data3)
    then set_durationMinutes
           (duration_minutes now (getTime (d_startedAt data3))) data3
    else data3
  else data2.

(** *** The Payload local API, as far as the handlers use it

    The database holds the two collections in the order a query returns
    them; [clock] is the wall clock; [faults] tells which calls of the
    persistence layer throw, and with what message. *)

Inductive Call : Type :=
| FindSessionByID
| FindSessions
| UpdateSession
| UpdateUser.

Record Payload : Type := mkPayload {
  sessions : list Session;
  users : list User;
  clock : Z;
  faults : Call -> option string;
  console : list string;
}.

Definition with_sessions (l : list Session) (p : Payload) : Payload :=
  mkPayload l (users p) (clock p) (faults p) (console p).
Definition with_users (l : list User) (p : Payload) : Payload :=
  mkPayload (sessions p) l (clock p) (faults p) (console p).
Definition console_error (msg : string) (p : Payload) : Payload :=
  mkPayload (sessions p) (users p) (clock p) (faults p) (console p ++ [msg]).

(** Handlers run in the monad of the database state with exceptions. *)
Definition M (A : Type) : Type := Payload -> outcome A * Payload.

Definition ret {A} (a : A) : M A := fun p => (Ok a, p).

Definition bind {A B} (m : M A) (k : A -> M B) : M B :=
  fun p =>
    match m p with
    | (Ok a, p') => k a p'
    | (Throw msg, p') => (Throw msg, p')
    end.

Definition try_catch {A} (m : M A) (handler : string -> M A) : M A :=
  fun p =>
    match m p with
    | (Ok a, p') => (Ok a, p')
    | (Throw msg, p') => handler msg p'
    end.

Notation "x <- m ;; k" := (bind m (fun x => k))
  (at level 100, m at next level, right associativity).
Notation "m ;;; k" := (bind m (fun _ => k))
  (at level 100, right associativity).

(** [new Date()] *)
Definition new_Date : M Z := fun p => (Ok (clock p), p).

(** The first document with the given id. *)
Fixpoint lookup_session (i : string) (l : list Session) : option Session :=
  match l with
  | [] => None
  | s :: l' => if bool_decide (id s = i) then Some s else lookup_session i l'
  end.

Fixpoint replace_session (i : string) (s' : Session) (l : list Session)
  : list Session :=
  match l with
  | [] => []
  | s :: l' =>
      if bool_decide (id s = i) then s' :: l'
      else s :: replace_session i s' l'
  end.

Fixpoint lookup_user (i : string) (l : list User) : option User :=
  match l with
  | [] => None
  | u :: l' => if bool_decide (u_id u = i) then Some u else lookup_user i l'
  end.

Fixpoint replace_user (i : string) (u' : User) (l : list User) : list User :=
  match l with
  | [] => []
  | u :: l' =>
      if bool_decide (u_id u = i) then u' :: l' else u :: replace_user i u' l'
  end.

(** A date property of [data] replaces the stored one unless it is absent. *)
Definition merge_date (stored new : DateField) : DateField :=
  match new with
  | Undefined => stored
  | _ => new
  end.

Definition merge {A} (stored : A) (new : option A) : A :=
  match new with
  | Some v => v
  | None => stored
  end.

Definition merge_option {A} (stored new : option A) : option A :=
  match new with
  | Some v => Some v
  | None => stored
  end.

Definition apply_data (doc : Session) (data : SessionData) : Session :=
  mkSession (id doc)
            (merge (user doc) (d_user data))
            (merge (workspace doc) (d_workspace data))
            (merge (project doc) (d_project data))
            (merge (task doc) (d_task data))
            (merge (status doc) (d_status data))
            (merge (notes doc) (d_notes data))
            (merge_date (startedAt doc) (d_startedAt data))
            (merge_date (lastActive doc) (d_lastActive data))
            (merge_date (completedAt doc) (d_completedAt data))
            (merge_option (durationMinutes doc) (d_durationMinutes data))
            (merge_option (context doc) (d_context data)).

(** [payload.findByID({ collection: 'sessions', id })]: the document, or a
    NotFound error. *)
Definition findByID (i : string) : M (option Session) :=
  fun p =>
    match faults p FindSessionByID with
    | Some msg => (Throw msg, p)
    | None =>
        match lookup_session i (sessions p) with
        | Some s => (Ok (Some s), p)
        | None => (Throw "The requested resource was not found.", p)
        end
    end.

(** [payload.find({ collection: 'sessions', where, limit })]: [docs]. *)
Definition find (query : Session -> bool) (limit : nat) : M (list Session) :=
  fun p =>
    match faults p FindSessions with
    | Some msg => (Throw msg, p)
    | None => (Ok (take limit (filter (fun s => query s = true) (sessions p))), p)
    end.

(** What the collection's hooks get as [data] on an update: Payload fills
    every property the caller's data leaves [undefined] with the stored
    document's. *)
Definition merge_stored (doc : Session) (data : SessionData) : SessionData :=
  mkData (Some (merge (user doc) (d_user data)))
         (Some (merge (status doc) (d_status data)))
         (merge_date (startedAt doc) (d_startedAt data))
         (merge_date (lastActive doc) (d_lastActive data))
         (merge_date (completedAt doc) (d_completedAt data))
         (merge_option (durationMinutes doc) (d_durationMinutes data))
         (merge_option (context doc) (d_context data))
         (Some (merge (workspace doc) (d_workspace data)))
         (Some (merge (project doc) (d_project data)))
         (Some (merge (task doc) (d_task data)))
         (Some (merge (notes doc) (d_notes data))).

(** [payload.update({ collection: 'sessions', id, data })]: the collection's
    [beforeChange] hook runs on the caller's [data] completed from the
    stored document, the outcome is written over the stored document.  The
    local API call carries no [req.user].  Whether the call throws, for the
    database or for data that Payload's validation rejects, is what [faults]
    says. *)
Definition update_session (i : string) (data : SessionData) : M Session :=
  fun p =>
    match faults p UpdateSession with
    | Some msg => (Throw msg, p)
    | None =>
        match lookup_session i (sessions p) with
        | None => (Throw "The requested resource was not found.", p)
        | Some doc =>
            let doc' :=
              apply_data doc
                (beforeChange (merge_stored doc data) None update (clock p)) in
            (Ok doc', with_sessions (replace_session i doc' (sessions p)) p)
        end
    end.

(** [payload.update({ collection: 'users', id, data: { lastActive } })] *)
Definition update_user_lastActive (i : string) (t : Z) : M User :=
  fun p =>
    match faults p UpdateUser with
    | Some msg => (Throw msg, p)
    | None =>
        match lookup_user i (users p) with
        | None => (Throw "The requested resource was not found.", p)
        | Some u =>
            let u' := mkUser (u_id u) (u_role u) (DateOf t) in
            (Ok u', with_users (replace_user i u' (users p)) p)
        end
    end.

(** *** HTTP responses *)

Inductive Body : Type :=
| error_body (error : string)
| success_body
| session_body (s : Session).

Record Response : Type := mkResponse {
  code : nat;
  body : Body;
}.

(** [saveState], the handler of [POST /api/session-tracking/save-state];
    [sessionId] and [context] come from [req.body]. *)
Definition saveState (req_user : option User) (sessionId : string)
  (context : string) : M Response :=
  match req_user with
  | None => ret (mkResponse 401 (error_body "Unauthorized"))
  | Some u =>
      try_catch
        (session <- findByID sessionId ;;
         match session with
         | None => ret (mkResponse 403 (error_body "Forbidden"))
         | Some s =>
             if negb (bool_decide (user s = u_id u))
             then ret (mkResponse 403 (error_body "Forbidden"))
             else
               now <- new_Date ;;
               update_session sessionId
                 (set_lastActive (DateOf now) (set_context context no_data)) ;;;
               ret (mkResponse 200 success_body)
         end)
        (fun msg => ret (mkResponse 500 (error_body msg)))
  end.

(** The handler of [GET /api/resume-session/:id]. *)
Definition resumeSession (req_user : option User) (req_params_id : string)
  : M Response :=
  match req_user with
  | None => ret (mkResponse 401 (error_body "Unauthorized"))
  | Some u =>
      try_catch
        (session <- findByID req_params_id ;;
         match session with
         | None => ret (mkResponse 403 (error_body "Forbidden"))
         | Some s =>
             if negb (bool_decide (user s = u_id u))
             then ret (mkResponse 403 (error_body "Forbidden"))
             else
               (if bool_decide (status s = paused)
                then
                  now <- new_Date ;;
                  update_session req_params_id
                    (set_lastActive (DateOf now) (set_status active no_data)) ;;;
                  ret tt
                else ret tt) ;;;
               ret (mkResponse 200 (session_body s))
         end)
        (fun msg => ret (mkResponse 500 (error_body msg)))
  end.

(** [middleware/trackActivity] *)
Definition ACTIVITY_TIMEOUT : Z := 15 * 60 * 1000.

(** The [where] clause: [user equals userId] and [status equals 'active']. *)
Definition active_session_of (userId : string) (s : Session) : bool :=
  bool_decide (user s = userId) && bool_decide (status s = active).

(** The middleware; in every case it ends by calling [next()]. *)
Definition trackActivity (req_user : option User) : M unit :=
  match req_user with
  | None => ret tt
  | Some u =>
      try_catch
        (now <- new_Date ;;
         let userId := u_id u in
         update_user_lastActive userId now ;;;
         docs <- find (active_session_of userId) 1 ;;
         match docs with
         | session :: _ =>
             update_session (id session) (set_lastActive (DateOf now) no_data) ;;;
             let timeSinceLastActive :=
               minus (Some now) (getTime (lastActive session)) in
             if gt timeSinceLastActive (Some ACTIVITY_TIMEOUT)
             then
               update_session (id session) (set_status paused no_data) ;;;
               ret tt
             else ret tt
         | [] => ret tt
         end)
        (fun _ => fun p => (Ok tt, console_error "Error tracking user activity:" p))
  end.

(** The first active session of a user, in query order. *)
Definition first_active_session (userId : string) (l : list Session)
  : option Session :=
  head (filter (fun s => active_session_of userId s = true) l).

(** A small database in the manner of the seed script: one session of user
    [u1], and a second user. *)
Definition no_faults : Call -> option string := fun _ => None.

Definition owner : User := mkUser "u1" "user" Undefined.
Definition stranger : User := mkUser "u2" "user" Undefined.

Definition seeded_session (st : Status) (last : Z) : Session :=
  mkSession "s1" "u1" (Some "w1") (Some "p1") (Some "t2") st
            (Some "Working on wireframes for the dashboard screen.")
            (DateOf 0) (DateOf last) Undefined None
            (Some "{ currentScreen: design }").

Definition seeded (st : Status) (last now : Z) : Payload :=
  mkPayload [seeded_session st last] [owner; stranger] now no_faults [].

End Sessions.

(** ** The service as a whole: local store and sync queue together
    (TECHNICAL_CHALLENGES.md, section 4) *)

Module OfflineFirst.
Import Js.

(** [PayloadPersistenceService]: its [syncService] and, in [env], its
    [localStore] and what surrounds it.  [encode] gives the text kept in the
    queue entry for the workspace object put in [data]. *)
Record Service : Type := mkService {
  env : PayloadPersistenceService.Env;
  syncService : SyncService.State;
}.

Section saveWorkspace.

Variable encode : PayloadPersistenceService.Workspace -> string.

(** [saveWorkspace(workspace)]: the local store first, then the queue. *)
Definition saveWorkspace (workspace : PayloadPersistenceService.Workspace)
  (now : Z) (uuid : string) (svc : Service) : Service :=
  let env1 :=
    PayloadPersistenceService.localStore_saveWorkspace workspace (env svc) in
  mkService env1
    (SyncService.addToQueue
       (SyncService.mkOperation "saveWorkspace" (encode workspace))
       now uuid (syncService svc)).

End saveWorkspace.

Definition getWorkspace (i : string) (svc : Service)
  : option PayloadPersistenceService.Workspace * Service :=
  let (r, env1) := PayloadPersistenceService.getWorkspace i (env svc) in
  (r, mkService env1 (syncService svc)).

End OfflineFirst.

(** ** Recovery points (TECHNICAL_CHALLENGES.md, section 3) *)

Module SessionProvider.

Record RecoveryPoint : Type := mkRecoveryPoint {
  id : string;
  timestamp : string;
  description : string;
  stateKey : string;
  snapshotType : string;
  operationContext : option string;
}.

Section createRecoveryPoint.

(** What [collectAppState()] returns. *)
Context {AppState : Type}.

(** The provider: its [sessionId], the storage behind [storage.current]
    and the [recoveryPoints] state. *)
Record Provider : Type := mkProvider {
  sessionId : string;
  storage : gmap string AppState;
  recoveryPoints : list RecoveryPoint;
}.

(** Modelled from the spec: [StorageProvider.set], whose implementations are
    missing; the Local Store is a key-value store, [set] binds the key. *)
Definition storage_set (key : string) (value : AppState)
  (st : gmap string AppState) : gmap string AppState :=
  <[key := value]> st.

Definition stateKey_of (session timestamp : string) : string :=
  "recovery-point-" ++ session ++ "-" ++ timestamp.

(** [createRecoveryPoint(description, type = 'auto', context)]; [now] is
    what [new Date().toISOString()] answers, [uuid] what
    [crypto.randomUUID()] answers and [currentState] what
    [collectAppState()] answers. *)
Definition createRecoveryPoint (description : string) (type : option string)
  (context : option string) (now uuid : string) (currentState : AppState)
  (p : Provider) : string * Provider :=
  let type := match type with Some t => t | None => "auto" end in
  let timestamp := now in
  let key := stateKey_of (sessionId p) timestamp in
  let storage1 := storage_set key currentState (storage p) in
  let recoveryPoint :=
    mkRecoveryPoint uuid timestamp description key type context in
  (id recoveryPoint,
   mkProvider (sessionId p) storage1 (recoveryPoints p ++ [recoveryPoint])).

(** The [beforeunload] handler. *)
Definition handleBeforeUnload (now uuid : string) (currentState : AppState)
  (p : Provider) : Provider :=
  snd (createRecoveryPoint "Window closing" (Some "auto") None now uuid
         currentState p).

End createRecoveryPoint.

End SessionProvider.

(** ** SafeSessionManager (TECHNICAL_CHALLENGES.md, section 3) *)

Module SafeSessionManager.
Import Js.

(** The wrapped [WorkSessionManager], seen through what a call of its
    [getWindowId()] does. *)
Record WorkSessionManager : Type := mkManager {
  manager_getWindowId : outcome string;
}.

(** [getWindowId()]: [manager] is [null] until [initialize]; [uuid] is what
    [crypto.randomUUID()] answers.  The result and what is logged. *)
Definition getWindowId (manager : option WorkSessionManager) (uuid : string)
  : string * list string :=
  match manager with
  | None => (uuid, [])
  | Some m =>
      match manager_getWindowId m with
      | Ok w => (if LocalStore.nonempty w then w else uuid, [])
      | Throw _ => (uuid, ["Error in getWindowId:"])
      end
  end.

End SafeSessionManager.

(** ** LLM service and prompt routing (TECHNICAL_CHALLENGES.md, section 5) *)

Module LLM.
Import Js.

(** [s.includes(sub)] *)
Fixpoint includes (s sub : string) : bool :=
  if String.prefix sub s then true
  else
    match s with
    | EmptyString => false
    | String _ s' => includes s' sub
    end.

(** An entry of [modelConfig]; the parameters keep their decimal literals
    as written. *)
Record ModelConfig : Type := mkModelConfig {
  displayName : string;
  description : string;
  defaultParameters : list (string * string);
}.

Definition modelConfig : gmap string ModelConfig :=
  <["llama3" := mkModelConfig "Llama 3" "General purpose assistant"
                  [("temperature", "0.7"); ("top_p", "0.9")]]>
  (<["deepseek-coder" := mkModelConfig "DeepSeek Coder"
                           "Specialized for code tasks"
                           [("temperature", "0.2"); ("top_p", "0.95")]]>
  (<["mistral" := mkModelConfig "Mistral" "Strong reasoning capabilities"
                    [("temperature", "0.5"); ("top_p", "0.9")]]> ∅)).

(** [routePrompt(prompt, task)]; [task] may be [undefined]. *)
Definition routePrompt (prompt : string) (task : option string) : string :=
  if bool_decide (task = Some "code") || includes prompt "code"
     || includes prompt "function"
  then "deepseek-coder"
  else if bool_decide (task = Some "reasoning") || includes prompt "explain"
          || includes prompt "reason"
  then "mistral"
  else "llama3".

(** What the Ollama server answers: for each [fetch], a throw (no
    connection) or a response; of a response, [ok] for the first two
    endpoints and, for [/api/generate], what [response.json()] gives (a
    throw, or [result.response], which may be [undefined]). *)
Record Ollama : Type := mkOllama {
  api_version : outcome bool;
  api_pull : string -> outcome bool;
  api_generate : string -> string -> string -> outcome (outcome (option string));
}.

(** The service object, the console, and the endpoints it has fetched. *)
Record Service : Type := mkService {
  models : gmap string bool;
  isOllamaRunning : bool;
  console : list string;
  fetched : list string;
}.

Definition with_models (m : gmap string bool) (s : Service) : Service :=
  mkService m (isOllamaRunning s) (console s) (fetched s).
Definition with_isOllamaRunning (b : bool) (s : Service) : Service :=
  mkService (models s) b (console s) (fetched s).
Definition console_error (msg : string) (s : Service) : Service :=
  mkService (models s) (isOllamaRunning s) (console s ++ [msg]) (fetched s).
Definition fetching (url : string) (s : Service) : Service :=
  mkService (models s) (isOllamaRunning s) (console s) (fetched s ++ [url]).

(** The fields as [constructor()] sets them; the [checkOllamaStatus()] it
    starts is not awaited and settles later. *)
Definition constructor_fields : Service := mkService ∅ false [] [].

Section LLMService.

Variable ollama : Ollama.

Definition checkOllamaStatus (s : Service) : Service :=
  let s1 := fetching "http://localhost:11434/api/version" s in
  match api_version ollama with
  | Ok ok => with_isOllamaRunning ok s1
  | Throw _ => with_isOllamaRunning false s1
  end.

(** [this.models[modelName] = true]; [models] is a plain object, and the
    key [__proto__], unless an own property, reaches the setter of
    [Object.prototype], which ignores a primitive. *)
Definition mark_loaded (modelName : string) (m : gmap string bool)
  : gmap string bool :=
  match m !! modelName with
  | None => if bool_decide (modelName = "__proto__") then m
            else <[modelName := true]> m
  | Some _ => <[modelName := true]> m
  end.

Definition loadModel (modelName : string) (s : Service)
  : outcome bool * Service :=
  let s1 := if isOllamaRunning s then s else checkOllamaStatus s in
  if negb (isOllamaRunning s1) then (Throw "Ollama is not running", s1)
  else
    let s2 := fetching "http://localhost:11434/api/pull" s1 in
    match api_pull ollama modelName with
    | Ok _ => (Ok true, with_models (mark_loaded modelName (models s2)) s2)
    | Throw _ =>
        (Ok false, console_error ("Error loading model " ++ modelName ++ ":") s2)
    end.

(** [this.models[modelName]] as a condition: an own property, or else a
    member of [Object.prototype], which is truthy. *)
Definition loaded (modelName : string) (s : Service) : bool :=
  match models s !! modelName with
  | Some b => b
  | None => inherited modelName
  end.

Definition generateResponse (prompt modelName params : string) (s : Service)
  : outcome (option string) * Service :=
  let attempt (s1 : Service) :=
    let s2 := fetching "http://localhost:11434/api/generate" s1 in
    match api_generate ollama modelName prompt params with
    | Ok (Ok response) => (Ok response, s2)
    | Ok (Throw msg) | Throw msg =>
        (Throw msg, console_error "Error generating response:" s2)
    end in
  if negb (loaded modelName s) then
    match loadModel modelName s with
    | (Throw msg, s1) => (Throw msg, s1)
    | (Ok _, s1) => attempt s1
    end
  else attempt s.

End LLMService.

End LLM.

(** ** Work item filters (TECHNICAL_CHALLENGES.md, section 6) *)

Module WorkItemFilters.

Record WorkItem : Type := mkWorkItem {
  id : string;
  title : string;
  status : string;
  priority : string;
}.

(** [filters]: a property that is absent is [None]; an empty string is as
    good as absent. *)
Record Filters : Type := mkFilters {
  f_status : option string;
  f_priority : option string;
  f_search : option string;
}.

Definition set_filter (f : option string) : option string :=
  match f with
  | Some s => if LocalStore.nonempty s then Some s else None
  | None => None
  end.

Section applyFilters.

(** [String.prototype.toLowerCase] *)
Variable toLowerCase : string -> string.

(** The callback of [workItems.filter]. *)
Definition keeps (filters : Filters) (item : WorkItem) : bool :=
  match set_filter (f_status filters) with
  | Some s => bool_decide (status item = s)
  | None => true
  end
  &&
  match set_filter (f_priority filters) with
  | Some p => bool_decide (priority item = p)
  | None => true
  end
  &&
  match set_filter (f_search filters) with
  | Some q => LLM.includes (toLowerCase (title item)) (toLowerCase q)
  | None => true
  end.

Definition applyFilters (filters : Filters) (workItems : list WorkItem)
  : list WorkItem :=
  filter (fun item => keeps filters item = true) workItems.

End applyFilters.

End WorkItemFilters.

(** ** The other collections' hooks
    (plugins/sessionTracking/index.ts for tasks; the projects and workspaces
    collections) *)

Module Collections.
Import Js.

Inductive HookOperation : Type := create | update.

(** The properties of a task's [data] that its hook reads or writes; [status]
    is absent ([None]) or one of the select's values. *)
Record TaskData : Type := mkTaskData {
  t_status : option string;
  t_createdAt : DateField;
  t_createdBy : option string;
  t_lastUpdated : DateField;
  t_completedDate : DateField;
}.

(** [Tasks.hooks.beforeChange]; [req_user] is [req.user.id] when there is a
    user. *)
Definition tasks_beforeChange (data : TaskData) (req_user : option string)
  (operation : HookOperation) (now : Z) : TaskData :=
  let data1 :=
    match operation with
    | create =>
        mkTaskData (t_status data) (DateOf now)
                   (match req_user with
                    | Some u => Some u
                    | None => t_createdBy data
                    end)
                   (t_lastUpdated data) (t_completedDate data)
    | update => data
    end in
  let data2 :=
    mkTaskData (t_status data1) (t_createdAt data1) (t_createdBy data1)
               (DateOf now) (t_completedDate data1) in
  if bool_decide (t_status data2 = Some "completed")
     && negb (truthy (t_completedDate data2))
  then mkTaskData (t_status data2) (t_createdAt data2) (t_createdBy data2)
                  (t_lastUpdated data2) (DateOf now)
  else if negb (bool_decide (t_status data2 = Some "completed"))
  then mkTaskData (t_status data2) (t_createdAt data2) (t_createdBy data2)
                  (t_lastUpdated data2) Null
  else data2.

(** The properties of a project's or a workspace's [data] that the hooks
    read or write. *)
Record StampedData : Type := mkStamped {
  createdAt : DateField;
  createdBy : option string;
  lastUpdated : DateField;
  owner : option string;
}.

(** [Projects.hooks.beforeChange] *)
Definition projects_beforeChange (data : StampedData) (req_user : option string)
  (now : Z) : StampedData :=
  let data1 :=
    if negb (truthy (createdAt data))
    then mkStamped (DateOf now)
                   (match req_user with
                    | Some u => Some u
                    | None => createdBy data
                    end)
                   (lastUpdated data) (owner data)
    else data in
  mkStamped (createdAt data1) (createdBy data1) (DateOf now) (owner data1).

(** [Workspaces.hooks.beforeChange]; an [owner] given as the empty string
    is as good as absent, which [None] covers. *)
Definition workspaces_beforeChange (data : StampedData)
  (req_user : option string) (now : Z) : StampedData :=
  let data1 :=
    if negb (truthy (createdAt data))
    then mkStamped (DateOf now) (createdBy data) (lastUpdated data) (owner data)
    else data in
  let data2 :=
    mkStamped (createdAt data1) (createdBy data1) (DateOf now) (owner data1) in
  match owner data2, req_user with
  | None, Some u =>
      mkStamped (createdAt data2) (createdBy data2) (lastUpdated data2) (Some u)
  | _, _ => data2
  end.

End Collections.

(** ** The request pipeline of server.ts *)

Module Server.
Import Js.

(** [app.use(trackActivity)] comes before the route, so a request for
    [GET /api/resume-session/:id] runs the middleware and then, on
    [next()], the handler. *)
Definition GET_resume_session (req_user : option Sessions.User)
  (req_params_id : string) : Sessions.M Sessions.Response :=
  Sessions.bind (Sessions.trackActivity req_user)
    (fun _ => Sessions.resumeSession req_user req_params_id).

(** The wall clock moves on between two requests. *)
Definition at_time (now : Z) (p : Sessions.Payload) : Sessions.Payload :=
  Sessions.mkPayload (Sessions.sessions p) (Sessions.users p) now
                     (Sessions.faults p) (Sessions.console p).

(** From [p] to [p'] no session other than the one with id [i] changed, no
    session was added or removed, and the clock and the faults are the
    same. *)
Definition touches_only (i : string) (p p' : Sessions.Payload) : Prop :=
  Sessions.faults p' = Sessions.faults p
  /\ Sessions.clock p' = Sessions.clock p
  /\ map Sessions.id (Sessions.sessions p') = map Sessions.id (Sessions.sessions p)
  /\ forall j, j <> i ->
               Sessions.lookup_session j (Sessions.sessions p')
               = Sessions.lookup_session j (Sessions.sessions p).



End Server.

(** * Proof automation *)

(** Case analysis on every test a handler makes. *)
Ltac sync_cases :=
  repeat match goal with
         | |- context [if ?b then _ else _] => destruct b eqn:?
         | |- context [match ?l with [] => _ | _ :: _ => _ end] => destruct l eqn:?
         end;
  simpl in *; subst; try discriminate;
  try solve [repeat match goal with b : bool |- _ => destruct b end;
             simpl in *; discriminate];
  try congruence; eauto.

(** * Properties *)

Local Open Scope list_scope.

(** ** Arithmetic of [Math.round] *)

Lemma Math_round_div_nearest (n d : Z) :
  0 < d ->
  - d < 2 * (d * Js.Math_round_div n d - n) <= d.
Proof.
  intros Hd. unfold Js.Math_round_div.
  pose proof (Z.div_mod (2 * n + d) (2 * d) ltac:(lia)) as Hdm.
  pose proof (Z.mod_pos_bound (2 * n + d) (2 * d) ltac:(lia)) as Hb.
  lia.
Qed.

(** ** The sync queue *)

Section SyncQueue.
Import SyncService.

Lemma in_flight_is_head_constructor (onLine : bool) :
  in_flight_is_head (constructor onLine).
Proof. reflexivity. Qed.

Lemma in_flight_is_head_step (s : State) (e : Event) :
  in_flight_is_head s -> in_flight_is_head (step s e).
Proof.
  destruct s as [q sy on aw rem sto quo con].
  unfold in_flight_is_head. simpl.
  destruct aw as [op|]; simpl.
  - intros [-> [rest ->]].
    destruct e as [| |o n u| |[|]|b];
      unfold step, addToQueue, resume, saveQueue, processQueue; simpl;
      sync_cases.
  - intros ->.
    destruct e as [| |o n u| |[|]|b];
      unfold step, addToQueue, resume, saveQueue, processQueue; simpl;
      sync_cases.
    all: destruct q; simpl in *; try discriminate; inversion Heql; eauto.
Qed.

Lemma in_flight_is_head_run (es : list Event) (s : State) :
  in_flight_is_head s -> in_flight_is_head (run es s).
Proof.
  revert s. induction es as [|e es IH]; intros s Hs; simpl; [done|].
  apply IH. by apply in_flight_is_head_step.
Qed.

Lemma reachable_in_flight_is_head (s : State) :
  reachable s -> in_flight_is_head s.
Proof.
  intros (onLine & es & ->).
  apply in_flight_is_head_run, in_flight_is_head_constructor.
Qed.

(** Every enqueued operation is either acknowledged or still queued, and
    the two lists keep the order of enqueueing. *)
Lemma ledger_step (s : State) (e : Event) :
  in_flight_is_head s ->
  remote (step s e) ++ queue (step s e)
  = (remote s ++ queue s) ++ enqueue_sequence [e].
Proof.
  destruct s as [q sy on aw rem sto quo con].
  unfold in_flight_is_head. simpl.
  destruct aw as [op|]; simpl.
  - intros [-> [rest ->]].
    destruct e as [| |o n u| |[|]|b];
      unfold step, addToQueue, resume, saveQueue, processQueue; simpl;
      sync_cases;
      rewrite ?app_nil_r, <- ?app_assoc; simpl; reflexivity.
  - intros ->.
    destruct e as [| |o n u| |[|]|b];
      unfold step, addToQueue, resume, saveQueue, processQueue; simpl;
      sync_cases;
      rewrite ?app_nil_r, <- ?app_assoc; simpl; reflexivity.
Qed.

Lemma ledger_run (es : list Event) (s : State) :
  in_flight_is_head s ->
  remote (run es s) ++ queue (run es s)
  = (remote s ++ queue s) ++ enqueue_sequence es.
Proof.
  revert s. induction es as [|e es IH]; intros s Hs; simpl.
  - by rewrite app_nil_r.
  - fold (run es (step s e)).
    rewrite IH by (by apply in_flight_is_head_step).
    rewrite ledger_step by done.
    rewrite <- app_assoc. f_equal.
    destruct e; simpl; reflexivity.
Qed.

(** The acknowledged operations are only ever extended at the end. *)
Lemma remote_grows_step (s : State) (e : Event) :
  remote s `prefix_of` remote (step s e).
Proof.
  destruct s as [q sy on aw rem sto quo con].
  destruct e as [| |o n u| |[|]|b]; destruct aw;
    unfold step, addToQueue, resume, saveQueue, processQueue; simpl;
    sync_cases; try reflexivity; by apply prefix_app_r.
Qed.

Lemma remote_grows_run (es : list Event) (s : State) :
  remote s `prefix_of` remote (run es s).
Proof.
  revert s. induction es as [|e es IH]; intros s; simpl; [reflexivity|].
  transitivity (remote (step s e)); [apply remote_grows_step|apply IH].
Qed.

Lemma run_app (es es' : list Event) (s : State) :
  run (es ++ es') s = run es' (run es s).
Proof. apply fold_left_app. Qed.

(** A trigger that finds the service idle and online hands the head of the
    queue to [executeOperation]; when that succeeds exactly this operation
    is acknowledged and removed, and the service is idle again. *)
Lemma one_operation_per_trigger (s : State) (op : QueuedOperation)
  (rest : list QueuedOperation) :
  in_flight_is_head s -> idle s -> isOnline s = true -> queue s = op :: rest ->
  let s' := run [ProcessQueue; Settled true] s in
  remote s' = remote s ++ [op] /\ queue s' = rest /\ idle s'
  /\ isSyncing s' = false /\ isOnline s' = true.
Proof.
  destruct s as [q sy on aw rem sto quo con].
  unfold in_flight_is_head, idle. simpl.
  intros Hinv -> -> ->. simpl in Hinv. subst sy.
  unfold run, step, resume, saveQueue, processQueue; simpl.
  sync_cases.
Qed.

(** X1. It takes one trigger per queued operation to empty the queue. *)
Lemma drained_by_one_trigger_per_operation (s : State) :
  in_flight_is_head s -> idle s -> isOnline s = true ->
  let s' := run (successful_triggers (length (queue s))) s in
  remote s' = remote s ++ queue s /\ queue s' = [] /\ idle s'.
Proof.
  remember (queue s) as q eqn:Hq. revert s Hq.
  induction q as [|op rest IH]; intros s Hq Hinv Hidle Hon; simpl.
  - by rewrite app_nil_r.
  - destruct (one_operation_per_trigger s op rest Hinv Hidle Hon (eq_sym Hq))
      as (Hrem & Hqueue & Hidle' & _ & Hon').
    simpl in Hrem, Hqueue, Hidle', Hon'.
    specialize (IH (resume true (processQueue s)) (eq_sym Hqueue)).
    simpl in IH. rewrite Hrem, <- app_assoc in IH. apply IH; try done.
    apply (in_flight_is_head_run [ProcessQueue; Settled true] s Hinv).
Qed.

(** C1. After three operations were enqueued offline, coming online and the
    success of the one execution this starts deliver the first operation
    only: the call [this.processQueue()] that was meant to continue runs
    while [isSyncing] is still set and returns at the guard, so the second
    and third operation stay in the queue, the service is idle, and nothing
    more happens until another trigger. *)
Theorem single_trigger_delivers_only_the_head :
  let s := run (offline_then_online ++ [Settled true]) (constructor false) in
  remote s = [enqueued create_task_A 1 "op-1"]
  /\ queue s = [enqueued update_task_A 2 "op-2"; enqueued delete_task_A 3 "op-3"]
  /\ awaiting s = None
  /\ isSyncing s = false
  /\ isOnline s = true
  /\ forall n, run (repeat (Settled true) n) s = s.
Proof.
  cbv zeta.
  remember (run (offline_then_online ++ [Settled true]) (constructor false))
    as s eqn:Hs.
  vm_compute in Hs. subst s.
  repeat (split; [reflexivity|]).
  induction n as [|n IH]; [reflexivity|exact IH].
Qed.

(** C2. Whatever the history of events, the operations acknowledged by the
    remote system followed by the operations still queued are exactly the
    operations enqueued, in the order of enqueueing; so the delivered
    operations are a prefix of the enqueue sequence.  An operation in flight
    is the head of the queue, and the delivered list is only ever extended
    at its end. *)
Theorem drain_delivers_in_enqueue_order (onLine : bool) (es es' : list Event) :
  let s := run es (constructor onLine) in
  enqueue_sequence es = remote s ++ queue s
  /\ remote s `prefix_of` enqueue_sequence es
  /\ (forall op, awaiting s = Some op -> head (queue s) = Some op)
  /\ remote s `prefix_of` remote (run (es ++ es') (constructor onLine)).
Proof.
  intros s.
  assert (Hledger : enqueue_sequence es = remote s ++ queue s).
  { subst s. rewrite ledger_run by apply in_flight_is_head_constructor.
    reflexivity. }
  split; [exact Hledger|]. split; [|split].
  - rewrite Hledger. by apply prefix_app_r.
  - intros op Hop.
    pose proof (in_flight_is_head_run es (constructor onLine)
                  (in_flight_is_head_constructor onLine)) as Hinv.
    fold s in Hinv. unfold in_flight_is_head in Hinv. rewrite Hop in Hinv.
    destruct Hinv as [_ [rest ->]]. reflexivity.
  - rewrite run_app. apply remote_grows_run.
Qed.

(** C4. When the execution of the operation in flight fails, the queue, the
    acknowledged operations and the persisted queue stay as they were, the
    failed operation is still the head, and draining has stopped; the next
    trigger (the [online] event, or a call of [processQueue] or [addToQueue]
    while online) executes the same operation again. *)
Theorem failed_delivery_leaves_queue_unchanged (s : State)
  (op : QueuedOperation) :
  reachable s -> awaiting s = Some op ->
  let s' := step s (Settled false) in
  queue s' = queue s
  /\ head (queue s') = Some op
  /\ remote s' = remote s
  /\ stored s' = stored s
  /\ awaiting s' = None
  /\ isSyncing s' = false
  /\ awaiting (step s' Online) = Some op
  /\ (isOnline s' = true ->
      awaiting (step s' ProcessQueue) = Some op
      /\ forall o now uuid, awaiting (step s' (AddToQueue o now uuid)) = Some op).
Proof.
  intros Hreach Hop.
  apply reachable_in_flight_is_head in Hreach.
  destruct s as [q sy on aw rem sto quo con].
  unfold in_flight_is_head in Hreach. simpl in *. subst aw.
  destruct Hreach as [-> [rest ->]].
  unfold step, addToQueue, resume, saveQueue, processQueue; simpl.
  repeat split; try (intros ->; split; [|intros o now uuid]); sync_cases.
Qed.

Lemma failed_delivery_leaves_queue_unchanged_witness :
  let s := run [AddToQueue create_task_A 1 "op-1"] (constructor true) in
  let s' := step s (Settled false) in
  queue s' = queue s /\ awaiting (step s' Online) = Some (enqueued create_task_A 1 "op-1").
Proof.
  intros s s'.
  assert (Hr : reachable s) by (exists true, [AddToQueue create_task_A 1 "op-1"]; reflexivity).
  destruct (failed_delivery_leaves_queue_unchanged s
              (enqueued create_task_A 1 "op-1") Hr eq_refl)
    as (H1 & _ & _ & _ & _ & _ & H7 & _).
  split; [exact H1|exact H7].
Defined.

(** C10. In every state the service can reach: the settling of the pending
    execution, by success or by failure, leaves [isSyncing] false; the flag
    is up only while an execution is really pending, and a call that finds
    it up returns at the guard and changes nothing; and once nothing is
    pending, a trigger that finds the service online with a non-empty queue
    starts a new cycle on the head operation. *)
Theorem isSyncing_reset_in_finally (s : State) :
  reachable s ->
  (forall resolved, isSyncing (step s (Settled resolved)) = false
                    /\ awaiting (step s (Settled resolved)) = None)
  /\ (isSyncing s = true ->
      (exists op, awaiting s = Some op) /\ step s ProcessQueue = s)
  /\ (forall op rest,
        awaiting s = None -> queue s = op :: rest ->
        awaiting (step s Online) = Some op
        /\ (isOnline s = true ->
            awaiting (step s ProcessQueue) = Some op
            /\ forall o now uuid,
                awaiting (step s (AddToQueue o now uuid)) = Some op)).
Proof.
  intros Hreach.
  apply reachable_in_flight_is_head in Hreach.
  destruct s as [q sy on aw rem sto quo con].
  unfold in_flight_is_head in Hreach. simpl in *.
  split; [|split].
  - intros resolved.
    destruct aw as [op|]; [destruct Hreach as [-> [rest ->]]|subst sy];
      destruct resolved;
      unfold step, addToQueue, resume, saveQueue, processQueue; simpl;
      sync_cases.
  - intros ->. destruct aw as [op|]; [|discriminate].
    split; [eauto|].
    unfold step, processQueue. simpl. by rewrite orb_true_r.
  - intros op rest -> ->. subst sy.
    unfold step, addToQueue, resume, saveQueue, processQueue; simpl.
    split; [sync_cases|].
    intros ->. split; [|intros o now uuid]; sync_cases.
Qed.

Lemma isSyncing_reset_in_finally_witness :
  let s := run [AddToQueue update_task_A 2 "op-2"; Online; Settled false]
               (constructor false) in
  isSyncing s = false
  /\ awaiting (step s ProcessQueue) = Some (enqueued update_task_A 2 "op-2").
Proof.
  intros s.
  assert (Hr : reachable (run [AddToQueue update_task_A 2 "op-2"; Online]
                              (constructor false)))
    by (eexists _, _; reflexivity).
  destruct (isSyncing_reset_in_finally _ Hr) as (H1 & _ & _).
  split; [apply (H1 false)|].
  assert (Hs : reachable s) by (eexists _, _; reflexivity).
  destruct (isSyncing_reset_in_finally s Hs) as (_ & _ & H3).
  assert (Ha : awaiting s = None) by (vm_compute; reflexivity).
  assert (Hq : queue s = [enqueued update_task_A 2 "op-2"])
    by (vm_compute; reflexivity).
  assert (Hon : isOnline s = true) by (vm_compute; reflexivity).
  destruct (H3 _ _ Ha Hq) as [_ H4].
  destruct (H4 Hon) as [H5 _]. exact H5.
Defined.

End SyncQueue.

(** ** Conflict resolution on the read path *)

Section ConflictResolution.
Import Js PayloadPersistenceService.

Lemma newer_DateOf (a b : Workspace) (Ta Tb : Z) :
  updatedAt a = DateOf Ta -> updatedAt b = DateOf Tb ->
  newer a b = bool_decide (Tb < Ta).
Proof. intros Ha Hb. unfold newer. rewrite Ha, Hb. reflexivity. Qed.

(** C3. Online, with a remote copy [b] updated at [T2]: when the local copy
    [l] was updated at [T1], the read returns [b] and stores it locally if
    [T1 < T2], and returns [l] and leaves the store alone otherwise, the tie
    included; when there is no local copy, it returns [b] and stores it. *)
Theorem getWorkspace_last_writer_wins (i : string) (e : Env) (b : Workspace)
  (T2 : Z) :
  onLine e = true ->
  payloadAPI_getWorkspace e i = Ok (Some b) ->
  updatedAt b = DateOf T2 ->
  (forall l T1,
      localStore e !! i = Some l -> updatedAt l = DateOf T1 ->
      (T1 < T2 -> getWorkspace i e = (Some b, localStore_saveWorkspace b e))
      /\ (T2 <= T1 -> getWorkspace i e = (Some l, e))
      /\ (b <> l -> (fst (getWorkspace i e) = Some b <-> T1 < T2))
      /\ (snd (getWorkspace i e) =
            if bool_decide (T1 < T2) then localStore_saveWorkspace b e else e))
  /\ (localStore e !! i = None ->
      getWorkspace i e = (Some b, localStore_saveWorkspace b e))
  /\ (id b = i -> localStore (localStore_saveWorkspace b e) !! i = Some b).
Proof.
  intros Hon Hb HT2. split; [|split].
  - intros l T1 Hl HT1.
    unfold getWorkspace, localStore_getWorkspace.
    rewrite Hon, Hb, Hl, (newer_DateOf b l T2 T1) by done.
    case_bool_decide as Hlt; simpl.
    + repeat split; try done; try lia.
    + repeat split; try done; try lia.
      intros [=]. congruence.
  - intros Hl. unfold getWorkspace, localStore_getWorkspace.
    by rewrite Hon, Hb, Hl.
  - intros <-. simpl. apply lookup_insert_eq.
Qed.

Lemma getWorkspace_last_writer_wins_witness :
  let l := mkWorkspace "w1" "local copy" (DateOf 100) in
  let b := mkWorkspace "w1" "remote copy" (DateOf 100) in
  let e := mkEnv {[ "w1" := l ]} true (fun _ => Ok (Some b)) [] in
  getWorkspace "w1" e = (Some l, e).
Proof.
  intros l b e.
  assert (Hl : localStore e !! "w1" = Some l) by apply lookup_singleton_eq.
  destruct (getWorkspace_last_writer_wins "w1" e b 100 eq_refl eq_refl eq_refl)
    as [H _].
  destruct (H l 100 Hl eq_refl) as (_ & Htie & _).
  apply Htie. lia.
Defined.

End ConflictResolution.

(** ** Local persistence *)

Section LocalPersistence.
Import Js LocalStore.




End LocalPersistence.

(** ** Work sessions *)

Section WorkSessions.
Import Js Sessions.

Lemma lookup_session_id (i : string) (l : list Session) (s : Session) :
  lookup_session i l = Some s -> id s = i.
Proof.
  induction l as [|x l IH]; simpl; [done|].
  case_bool_decide; [congruence|exact IH].
Qed.

Lemma lookup_replace_eq (i : string) (l : list Session) (s s' : Session) :
  lookup_session i l = Some s -> id s' = i ->
  lookup_session i (replace_session i s' l) = Some s'.
Proof.
  intros Hl Hid. induction l as [|x l IH]; simpl in *; [done|].
  case_bool_decide as Hx; simpl.
  - by rewrite bool_decide_eq_true_2.
  - rewrite bool_decide_eq_false_2 by done. by apply IH.
Qed.

Lemma lookup_replace_ne (i j : string) (l : list Session) (s' : Session) :
  j <> i -> id s' = i ->
  lookup_session j (replace_session i s' l) = lookup_session j l.
Proof.
  intros Hne Hid. induction l as [|x l IH]; simpl; [done|].
  case_bool_decide as Hx; simpl.
  - rewrite !bool_decide_eq_false_2 by congruence. done.
  - by rewrite IH.
Qed.

Lemma lookup_session_NoDup (l : list Session) (s : Session) :
  NoDup (map id l) -> s ∈ l -> lookup_session (id s) l = Some s.
Proof.
  induction l as [|x l IH]; simpl; intros Hnd Hin.
  - by apply elem_of_nil in Hin.
  - apply NoDup_cons in Hnd as [Hx Hnd].
    apply elem_of_cons in Hin as [->|Hin].
    + by rewrite bool_decide_eq_true_2.
    + rewrite bool_decide_eq_false_2; [by apply IH|].
      intros Heq. apply Hx. rewrite Heq. apply list_elem_of_fmap. eauto.
Qed.

Lemma replace_session_ids (i : string) (s' : Session) (l : list Session) :
  id s' = i -> map id (replace_session i s' l) = map id l.
Proof.
  intros Hid. induction l as [|x l IH]; simpl; [done|].
  case_bool_decide as Hx; simpl; [congruence|by rewrite IH].
Qed.

Lemma replace_replace (i : string) (a b : Session) (l : list Session) :
  id a = i ->
  replace_session i b (replace_session i a l) = replace_session i b l.
Proof.
  intros Hid. induction l as [|x l IH]; simpl; [done|].
  case_bool_decide as Hx; simpl.
  - by rewrite bool_decide_eq_true_2.
  - rewrite bool_decide_eq_false_2 by done. by rewrite IH.
Qed.

Lemma lookup_user_id (i : string) (l : list User) (u : User) :
  lookup_user i l = Some u -> u_id u = i.
Proof.
  induction l as [|x l IH]; simpl; [done|].
  case_bool_decide; [congruence|exact IH].
Qed.

Lemma lookup_user_replace (i : string) (u u' : User) (l : list User) :
  lookup_user i l = Some u -> u_id u' = i ->
  lookup_user i (replace_user i u' l) = Some u'.
Proof.
  intros Hl Hid. induction l as [|x l IH]; simpl in *; [done|].
  case_bool_decide as Hx; simpl.
  - by rewrite bool_decide_eq_true_2.
  - rewrite bool_decide_eq_false_2 by done. by apply IH.
Qed.

Lemma merge_date_same (a : DateField) : merge_date a a = a.
Proof. by destruct a. Qed.

Lemma merge_option_same {A} (a : option A) : merge_option a a = a.
Proof. by destruct a. Qed.

Lemma merge_date_idem (a b : DateField) :
  merge_date a (merge_date a b) = merge_date a b.
Proof. destruct b; simpl; try reflexivity. apply merge_date_same. Qed.

Lemma merge_option_idem {A} (a b : option A) :
  merge_option a (merge_option a b) = merge_option a b.
Proof. destruct b; simpl; [reflexivity|by destruct a]. Qed.

(** Completing the data from the stored document does not change what is
    written over the stored document. *)
Lemma apply_merge_stored (doc : Session) (data : SessionData) :
  apply_data doc (merge_stored doc data) = apply_data doc data.
Proof.
  unfold apply_data, merge_stored. simpl.
  by rewrite !merge_date_idem, !merge_option_idem.
Qed.

(** On an update the hook only stamps [lastActive], unless it finds the
    status completed and no [completedAt]. *)
Lemma beforeChange_update_plain (data : SessionData) (req_user : option User)
  (now : Z) :
  d_status data <> Some completed \/ truthy (d_completedAt data) = true ->
  beforeChange data req_user update now = set_lastActive (DateOf now) data.
Proof.
  intros H. unfold beforeChange. simpl.
  destruct H as [Hst|Hca].
  - by rewrite bool_decide_eq_false_2.
  - rewrite Hca. by rewrite andb_false_r.
Qed.

(** On an update the hook leaves every property but [lastActive],
    [completedAt] and [durationMinutes] as it finds it. *)
Lemma beforeChange_update_keeps (data : SessionData) (req_user : option User)
  (now : Z) :
  let data' := beforeChange data req_user update now in
  d_user data' = d_user data /\ d_status data' = d_status data
  /\ d_startedAt data' = d_startedAt data /\ d_lastActive data' = DateOf now
  /\ d_context data' = d_context data
  /\ d_workspace data' = d_workspace data /\ d_project data' = d_project data
  /\ d_task data' = d_task data /\ d_notes data' = d_notes data.
Proof.
  destruct data as [du ds dsa dla dca ddm dcx dw dp dt dn].
  unfold beforeChange. simpl.
  case_bool_decide; simpl; [|done].
  destruct (truthy dca); simpl; [done|].
  by destruct (truthy dsa).
Qed.

Lemma update_session_ok (i : string) (data : SessionData) (p : Payload)
  (doc : Session) :
  faults p UpdateSession = None ->
  lookup_session i (sessions p) = Some doc ->
  update_session i data p
  = (let doc' :=
       apply_data doc
         (beforeChange (merge_stored doc data) None update (clock p)) in
     (Ok doc', with_sessions (replace_session i doc' (sessions p)) p)).
Proof. intros Hf Hl. unfold update_session. by rewrite Hf, Hl. Qed.

(** An update that does not complete the session writes the data and the
    time of the update, and nothing else. *)
Lemma update_session_plain (i : string) (data : SessionData) (p : Payload)
  (doc : Session) :
  faults p UpdateSession = None ->
  lookup_session i (sessions p) = Some doc ->
  merge (status doc) (d_status data) <> completed
  \/ truthy (merge_date (completedAt doc) (d_completedAt data)) = true ->
  update_session i data p
  = (let doc' := apply_data doc (set_lastActive (DateOf (clock p)) data) in
     (Ok doc', with_sessions (replace_session i doc' (sessions p)) p)).
Proof.
  intros Hf Hl Hplain. rewrite (update_session_ok i data p doc Hf Hl).
  rewrite beforeChange_update_plain.
  - change (set_lastActive (DateOf (clock p)) (merge_stored doc data))
      with (merge_stored doc (set_lastActive (DateOf (clock p)) data)).
    by rewrite apply_merge_stored.
  - destruct Hplain as [Hst|Hca]; [left|right; exact Hca].
    simpl. congruence.
Qed.

(** What the owner's save writes into the session. *)
Lemma saved_session (s : Session) (context : string) (now : Z) :
  let s' := apply_data s
              (beforeChange
                 (merge_stored s
                    (set_lastActive (DateOf now) (set_context context no_data)))
                 None update now) in
  Sessions.context s' = Some context
  /\ lastActive s' = DateOf now
  /\ id s' = id s /\ user s' = user s /\ status s' = status s
  /\ startedAt s' = startedAt s
  /\ workspace s' = workspace s /\ project s' = project s
  /\ task s' = task s /\ notes s' = notes s
  /\ (status s <> completed \/ truthy (completedAt s) = true ->
      s' = mkSession (id s) (user s) (workspace s) (project s) (task s)
                     (status s) (notes s) (startedAt s) (DateOf now)
                     (completedAt s) (durationMinutes s) (Some context))
  /\ (status s = completed -> truthy (completedAt s) = false ->
      completedAt s' = DateOf now).
Proof.
  intros s'. subst s'.
  assert (Hplain : status s <> completed \/ truthy (completedAt s) = true ->
    beforeChange
      (merge_stored s
         (set_lastActive (DateOf now) (set_context context no_data)))
      None update now
    = set_lastActive (DateOf now)
        (merge_stored s
           (set_lastActive (DateOf now) (set_context context no_data)))).
  { intros H. apply beforeChange_update_plain. simpl.
    destruct H as [H|H]; [left; congruence|right; exact H]. }
  destruct (decide (status s = completed)) as [Hc|Hc];
    [destruct (truthy (completedAt s)) eqn:Hca|].
  - rewrite Hplain by (by right). unfold apply_data. simpl.
    rewrite !merge_date_same, !merge_option_same. split_and!; done.
  - unfold beforeChange, apply_data. simpl. rewrite Hc, Hca. simpl.
    destruct (truthy (startedAt s)); simpl; rewrite !merge_date_same;
      split_and!; try done; intros [?|?]; done.
  - rewrite Hplain by (by left). unfold apply_data. simpl.
    rewrite !merge_date_same, !merge_option_same. split_and!; done.
Qed.

Lemma saveState_owner_effect (p : Payload) (u : User) (i context : string)
  (s : Session) :
  faults p FindSessionByID = None ->
  faults p UpdateSession = None ->
  lookup_session i (sessions p) = Some s ->
  user s = u_id u ->
  saveState (Some u) i context p
  = (Ok (mkResponse 200 success_body),
     with_sessions
       (replace_session i
          (apply_data s
             (beforeChange
                (merge_stored s
                   (set_lastActive (DateOf (clock p))
                      (set_context context no_data)))
                None update (clock p)))
          (sessions p)) p).
Proof.
  intros Hf Hu Hl Hown.
  unfold saveState, try_catch, bind, findByID. rewrite Hf, Hl.
  rewrite bool_decide_eq_true_2 by done. simpl.
  unfold new_Date. by rewrite (update_session_ok _ _ _ s Hu Hl).
Qed.

(** C5. [saveState]: no [req.user], 401; a session owned by someone else,
    403 and the database is untouched; the owner's call writes [context] and
    [lastActive] (the current time) into the session and answers 200, the
    session keeping its id, owner, status, start, links and notes, and also
    its [completedAt] and [durationMinutes] unless it is a completed session
    without a [completedAt], which the hook then stamps; no other session
    and no user is touched; an error thrown by the lookup or by the update
    is answered with 500 and its message. *)
Theorem saveState_responses (p : Payload) (sessionId context : string) :
  saveState None sessionId context p
  = (Ok (mkResponse 401 (error_body "Unauthorized")), p)
  /\ (forall u s,
        faults p FindSessionByID = None ->
        lookup_session sessionId (sessions p) = Some s ->
        user s <> u_id u ->
        saveState (Some u) sessionId context p
        = (Ok (mkResponse 403 (error_body "Forbidden")), p))
  /\ (forall u s,
        faults p FindSessionByID = None ->
        faults p UpdateSession = None ->
        lookup_session sessionId (sessions p) = Some s ->
        user s = u_id u ->
        exists p' s',
          saveState (Some u) sessionId context p
          = (Ok (mkResponse 200 success_body), p')
          /\ lookup_session sessionId (sessions p') = Some s'
          /\ Sessions.context s' = Some context
          /\ lastActive s' = DateOf (clock p)
          /\ id s' = id s /\ user s' = user s /\ status s' = status s
          /\ startedAt s' = startedAt s
          /\ workspace s' = workspace s /\ project s' = project s
          /\ task s' = task s /\ notes s' = notes s
          /\ (status s <> completed \/ truthy (completedAt s) = true ->
              s' = mkSession (id s) (user s) (workspace s) (project s) (task s)
                             (status s) (notes s) (startedAt s)
                             (DateOf (clock p)) (completedAt s)
                             (durationMinutes s) (Some context))
          /\ (status s = completed -> truthy (completedAt s) = false ->
              completedAt s' = DateOf (clock p))
          /\ (forall j, j <> sessionId ->
                        lookup_session j (sessions p')
                        = lookup_session j (sessions p))
          /\ users p' = users p)
  /\ (forall u msg,
        faults p FindSessionByID = Some msg ->
        saveState (Some u) sessionId context p
        = (Ok (mkResponse 500 (error_body msg)), p))
  /\ (forall u s msg,
        faults p FindSessionByID = None ->
        lookup_session sessionId (sessions p) = Some s ->
        user s = u_id u ->
        faults p UpdateSession = Some msg ->
        saveState (Some u) sessionId context p
        = (Ok (mkResponse 500 (error_body msg)), p)).
Proof.
  split; [reflexivity|]. split; [|split; [|split]].
  - intros u s Hf Hl Hne.
    unfold saveState, try_catch, bind, findByID. rewrite Hf, Hl.
    by rewrite bool_decide_eq_false_2.
  - intros u s Hf Hu Hl Hown.
    pose proof (lookup_session_id _ _ _ Hl) as Hid.
    destruct (saved_session s context (clock p))
      as (H1 & H2 & H3 & H4 & H5 & H6 & H7 & H8 & H9 & H10 & H11 & H12).
    eexists _, _. split; [by apply saveState_owner_effect|].
    simpl. split; [by apply (lookup_replace_eq _ _ s); [|rewrite H3]|].
    split_and!; try done.
    intros j Hj. apply lookup_replace_ne; [done|]. by rewrite H3.
  - intros u msg Hf.
    unfold saveState, try_catch, bind, findByID. by rewrite Hf.
  - intros u s msg Hf Hl Hown Hu.
    unfold saveState, try_catch, bind, findByID. rewrite Hf, Hl.
    rewrite bool_decide_eq_true_2 by done. simpl.
    unfold new_Date, update_session. by rewrite Hu.
Qed.

Lemma saveState_responses_witness :
  let p := seeded active 1000 5000 in
  saveState (Some stranger) "s1" "{ step: 2 }" p
  = (Ok (mkResponse 403 (error_body "Forbidden")), p)
  /\ exists p',
      saveState (Some owner) "s1" "{ step: 2 }" p
      = (Ok (mkResponse 200 success_body), p')
      /\ (context <$> lookup_session "s1" (sessions p')) = Some (Some "{ step: 2 }").
Proof.
  intros p.
  destruct (saveState_responses p "s1" "{ step: 2 }") as (_ & H403 & H200 & _).
  split.
  - apply (H403 stranger (seeded_session active 1000)).
    + reflexivity.
    + reflexivity.
    + simpl. discriminate.
  - destruct (H200 owner (seeded_session active 1000)
                eq_refl eq_refl eq_refl eq_refl)
      as (p' & s' & Hrun & Hl & Hcx & _).
    exists p'. split; [exact Hrun|]. rewrite Hl. simpl. by rewrite Hcx.
Defined.

(** C6. [GET /api/resume-session/:id]: no [req.user], 401; a session owned
    by someone else, 403 and the database is untouched; for the owner of a
    paused session the stored session becomes active with [lastActive] the
    current time and nothing else changed, and the body of the answer is the
    session document as it was read, before that update. *)
Theorem resumeSession_responses (p : Payload) (req_params_id : string) :
  resumeSession None req_params_id p
  = (Ok (mkResponse 401 (error_body "Unauthorized")), p)
  /\ (forall u s,
        faults p FindSessionByID = None ->
        lookup_session req_params_id (sessions p) = Some s ->
        user s <> u_id u ->
        resumeSession (Some u) req_params_id p
        = (Ok (mkResponse 403 (error_body "Forbidden")), p))
  /\ (forall u s,
        faults p FindSessionByID = None ->
        faults p UpdateSession = None ->
        lookup_session req_params_id (sessions p) = Some s ->
        user s = u_id u ->
        status s = paused ->
        exists p',
          resumeSession (Some u) req_params_id p
          = (Ok (mkResponse 200 (session_body s)), p')
          /\ lookup_session req_params_id (sessions p')
             = Some (mkSession (id s) (user s) (workspace s) (project s) (task s)
                               active (notes s) (startedAt s)
                               (DateOf (clock p)) (completedAt s)
                               (durationMinutes s) (context s))
          /\ (forall j, j <> req_params_id ->
                        lookup_session j (sessions p')
                        = lookup_session j (sessions p))).
Proof.
  split; [reflexivity|]. split.
  - intros u s Hf Hl Hne.
    unfold resumeSession, try_catch, bind, findByID. rewrite Hf, Hl.
    by rewrite bool_decide_eq_false_2.
  - intros u s Hf Hu Hl Hown Hpaused.
    pose proof (lookup_session_id _ _ _ Hl) as Hid.
    eexists. split; [|split].
    + unfold resumeSession, try_catch, bind, findByID. rewrite Hf, Hl.
      rewrite bool_decide_eq_true_2 by done. simpl.
      rewrite bool_decide_eq_true_2 by done.
      unfold new_Date.
      rewrite (update_session_plain _ _ _ s Hu Hl) by (by left). reflexivity.
    + simpl. erewrite lookup_replace_eq; [reflexivity|exact Hl|exact Hid].
    + intros j Hj. simpl. by apply lookup_replace_ne.
Qed.

Lemma resumeSession_responses_witness :
  let p := seeded paused 1000 5000 in
  exists p',
    resumeSession (Some owner) "s1" p
    = (Ok (mkResponse 200 (session_body (seeded_session paused 1000))), p')
    /\ (status <$> lookup_session "s1" (sessions p')) = Some active
    /\ (lastActive <$> lookup_session "s1" (sessions p')) = Some (DateOf 5000).
Proof.
  intros p.
  destruct (resumeSession_responses p "s1") as (_ & _ & H200).
  destruct (H200 owner (seeded_session paused 1000)
              eq_refl eq_refl eq_refl eq_refl eq_refl) as (p' & Hrun & Hl & _).
  exists p'. split; [exact Hrun|]. rewrite Hl. split; reflexivity.
Defined.

Lemma first_active_session_docs (userId : string) (l : list Session)
  (s : Session) :
  first_active_session userId l = Some s ->
  take 1 (filter (fun s => active_session_of userId s = true) l) = [s]
  /\ s ∈ l /\ user s = userId /\ status s = active.
Proof.
  unfold first_active_session. intros Hhd.
  destruct (filter _ l) as [|x rest] eqn:Hf; simpl in Hhd; [done|].
  injection Hhd as ->.
  assert (Hin : s ∈ filter (fun s => active_session_of userId s = true) l)
    by (rewrite Hf; apply list_elem_of_here).
  apply list_elem_of_filter in Hin as [Hact Hin].
  unfold active_session_of in Hact.
  apply andb_true_iff in Hact as [Hu Hs].
  apply bool_decide_eq_true in Hu. apply bool_decide_eq_true in Hs.
  repeat split; done.
Qed.


(** What a tracked request does to the database when nothing fails. *)
Lemma trackActivity_effect (p : Payload) (u : User) (s : Session) (t : Z) :
  (forall c, faults p c = None) ->
  is_Some (lookup_user (u_id u) (users p)) ->
  NoDup (map id (sessions p)) ->
  first_active_session (u_id u) (sessions p) = Some s ->
  lastActive s = DateOf t ->
  let s' := mkSession (id s) (user s) (workspace s) (project s) (task s)
                      (if bool_decide (ACTIVITY_TIMEOUT < clock p - t)
                       then paused else active)
                      (notes s) (startedAt s) (DateOf (clock p))
                      (completedAt s) (durationMinutes s) (context s) in
  exists p',
    trackActivity (Some u) p = (Ok tt, p')
    /\ sessions p' = replace_session (id s) s' (sessions p)
    /\ faults p' = faults p
    /\ clock p' = clock p
    /\ is_Some (lookup_user (u_id u) (users p')).
Proof.
  intros Hnf [u0 Hu0] Hnd Hfirst Hlast s'. subst s'.
  apply first_active_session_docs in Hfirst as (Hdocs & Hin & Huser & Hstatus).
  pose proof (lookup_session_NoDup _ _ Hnd Hin) as Hl.
  pose proof (lookup_user_id _ _ _ Hu0) as Hu0id.
  unfold trackActivity, try_catch, bind, new_Date, update_user_lastActive, find.
  rewrite !Hnf, Hu0. simpl. rewrite Hnf, Hdocs.
  rewrite (update_session_plain _ _ _ s)
    by first [apply Hnf | exact Hl | left; simpl; congruence].
  simpl. rewrite Hlast. simpl.
  case_bool_decide as Hlate.
  - erewrite update_session_plain;
      [|apply Hnf
       |simpl; erewrite lookup_replace_eq; [reflexivity|exact Hl|reflexivity]
       |left; simpl; discriminate].
    simpl. eexists. split; [reflexivity|]. simpl.
    rewrite replace_replace by reflexivity.
    repeat split; try done.
    erewrite lookup_user_replace; [eauto|exact Hu0|exact Hu0id].
  - eexists. split; [reflexivity|]. simpl. rewrite <- Hstatus.
    repeat split; try done.
    erewrite lookup_user_replace; [eauto|exact Hu0|exact Hu0id].
Qed.

(** C7. A tracked request of an authenticated user whose first active
    session [s] was last active at [t]: the session's [lastActive] becomes
    the current time [now], and its status becomes paused exactly when
    [now - t] is more than 15 minutes; 15 minutes and one second pause it,
    14 minutes do not. *)
Theorem trackActivity_pauses_after_timeout (p : Payload) (u : User)
  (s : Session) (t : Z) :
  (forall c, faults p c = None) ->
  is_Some (lookup_user (u_id u) (users p)) ->
  NoDup (map id (sessions p)) ->
  first_active_session (u_id u) (sessions p) = Some s ->
  lastActive s = DateOf t ->
  exists p' s',
    trackActivity (Some u) p = (Ok tt, p')
    /\ lookup_session (id s) (sessions p') = Some s'
    /\ s' = mkSession (id s) (user s) (workspace s) (project s) (task s)
                      (if bool_decide (15 * 60 * 1000 < clock p - t)
                       then paused else active)
                      (notes s) (startedAt s) (DateOf (clock p))
                      (completedAt s) (durationMinutes s) (context s)
    /\ (status s' = paused <-> 15 * 60 * 1000 < clock p - t)
    /\ (status s' = active <-> clock p - t <= 15 * 60 * 1000)
    /\ (clock p - t = 15 * 60 * 1000 + 1000 -> status s' = paused)
    /\ (clock p - t = 14 * 60 * 1000 -> status s' = active).
Proof.
  intros Hnf Hu0 Hnd Hfirst Hlast.
  destruct (trackActivity_effect p u s t Hnf Hu0 Hnd Hfirst Hlast)
    as (p' & Hrun & Hs' & _).
  apply first_active_session_docs in Hfirst as (_ & Hin & _ & _).
  pose proof (lookup_session_NoDup _ _ Hnd Hin) as Hl.
  eexists p', _. split; [exact Hrun|]. split.
  { rewrite Hs'. apply (lookup_replace_eq _ _ s); [exact Hl|reflexivity]. }
  split; [reflexivity|].
  clear Hrun Hs'. simpl. unfold ACTIVITY_TIMEOUT.
  case_bool_decide; repeat split; intros; try done; try lia.
Qed.

Lemma trackActivity_pauses_after_timeout_witness :
  (exists p',
      trackActivity (Some owner) (seeded active 0 901000) = (Ok tt, p')
      /\ (status <$> lookup_session "s1" (sessions p')) = Some paused)
  /\ (exists p',
      trackActivity (Some owner) (seeded active 0 840000) = (Ok tt, p')
      /\ (status <$> lookup_session "s1" (sessions p')) = Some active).
Proof.
  assert (Hnd : NoDup (map id [seeded_session active 0]))
    by (apply NoDup_singleton).
  split.
  - destruct (trackActivity_pauses_after_timeout
                (seeded active 0 901000) owner (seeded_session active 0) 0
                (fun _ => eq_refl) (ex_intro _ owner eq_refl) Hnd eq_refl eq_refl)
      as (p' & s' & Hrun & Hl & _ & _ & _ & Hlate & _).
    exists p'. split; [exact Hrun|].
    change (id (seeded_session active 0)) with "s1" in Hl.
    rewrite Hl. simpl. f_equal. apply Hlate. reflexivity.
  - destruct (trackActivity_pauses_after_timeout
                (seeded active 0 840000) owner (seeded_session active 0) 0
                (fun _ => eq_refl) (ex_intro _ owner eq_refl) Hnd eq_refl eq_refl)
      as (p' & s' & Hrun & Hl & _ & _ & _ & _ & Hearly).
    exists p'. split; [exact Hrun|].
    change (id (seeded_session active 0)) with "s1" in Hl.
    rewrite Hl. simpl. f_equal. apply Hearly. reflexivity.
Defined.

(** C8. A session changed to completed with no [completedAt] yet recorded,
    started at [t0] and changed at [now], not earlier and no more than 2^53
    ms later (where the quotient of the doubles rounds as the exact one
    does): the hook sets [completedAt] to [now] and [durationMinutes] to
    [(now - t0) / 60000] rounded to the nearest integer, a half going up.
    On an update [t0] is the [startedAt] the hook is handed, which under
    [payload.update] is the stored one unless the data names another, and
    the stored session ends completed with this [completedAt] and this
    duration; on a create [startedAt] is [now] itself and the duration 0. *)
Theorem completed_sets_completedAt_and_duration (now t0 : Z) :
  0 <= now - t0 <= 2 ^ 53 ->
  let minutes := Math_round_div (now - t0) 60000 in
  (0 <= minutes /\ - 60000 < 2 * (60000 * minutes - (now - t0)) <= 60000)
  /\ (forall data req_user,
        d_status data = Some completed ->
        truthy (d_completedAt data) = false ->
        d_startedAt data = DateOf t0 ->
        let data' := beforeChange data req_user update now in
        d_status data' = Some completed
        /\ d_startedAt data' = DateOf t0
        /\ d_completedAt data' = DateOf now
        /\ d_durationMinutes data' = Some (Num minutes))
  /\ (forall data req_user,
        d_status data = Some completed ->
        truthy (d_completedAt data) = false ->
        let data' := beforeChange data req_user create now in
        d_status data' = Some completed
        /\ d_startedAt data' = DateOf now
        /\ d_completedAt data' = DateOf now
        /\ d_durationMinutes data' = Some (Num 0))
  /\ (forall i data p s,
        clock p = now ->
        faults p UpdateSession = None ->
        lookup_session i (sessions p) = Some s ->
        merge (status s) (d_status data) = completed ->
        truthy (merge_date (completedAt s) (d_completedAt data)) = false ->
        merge_date (startedAt s) (d_startedAt data) = DateOf t0 ->
        exists s' p',
          update_session i data p = (Ok s', p')
          /\ lookup_session i (sessions p') = Some s'
          /\ status s' = completed
          /\ startedAt s' = DateOf t0
          /\ completedAt s' = DateOf now
          /\ durationMinutes s' = Some (Num minutes)).
Proof.
  intros Hrange minutes. subst minutes.
  assert (Hhook : forall data req_user,
             d_status data = Some completed ->
             truthy (d_completedAt data) = false ->
             d_startedAt data = DateOf t0 ->
             beforeChange data req_user update now
             = set_durationMinutes (Num (Math_round_div (now - t0) 60000))
                 (set_completedAt (DateOf now)
                    (set_lastActive (DateOf now) data))).
  { intros data req_user Hst Hca Hsa. unfold beforeChange. simpl.
    rewrite Hst, Hca, Hsa. reflexivity. }
  split; [|split; [|split]].
  - pose proof (Math_round_div_nearest (now - t0) 60000 ltac:(lia)).
    split; [|lia]. unfold Math_round_div. apply Z.div_pos; lia.
  - intros data req_user Hst Hca Hsa data'. subst data'.
    rewrite (Hhook _ _ Hst Hca Hsa). by simpl.
  - intros data req_user Hst Hca data'. subst data'.
    unfold beforeChange. destruct req_user; simpl; rewrite Hst, Hca; simpl;
      by rewrite Z.sub_diag.
  - intros i data p s Hclock Hf Hl Hst Hca Hsa.
    pose proof (lookup_session_id _ _ _ Hl) as Hid.
    rewrite (update_session_ok i data p s Hf Hl), Hclock.
    rewrite Hhook by (simpl; congruence).
    eexists _, _. split; [reflexivity|]. simpl.
    split; [by apply (lookup_replace_eq _ _ s)|].
    rewrite Hst, Hsa. destruct (completedAt s), (d_completedAt data); done.
Qed.

Lemma completed_sets_completedAt_and_duration_witness :
  exists s' p',
    update_session "s1" (set_status completed no_data)
      (seeded active 540000 630000) = (Ok s', p')
    /\ lookup_session "s1" (sessions p') = Some s'
    /\ completedAt s' = DateOf 630000
    /\ durationMinutes s' = Some (Num 11).
Proof.
  assert (Hrange : 0 <= 630000 - 0 <= 2 ^ 53)
    by (split; vm_compute; discriminate).
  destruct (completed_sets_completedAt_and_duration 630000 0 Hrange)
    as (_ & _ & _ & Hupdate).
  destruct (Hupdate "s1" (set_status completed no_data)
              (seeded active 540000 630000) (seeded_session active 540000)
              eq_refl eq_refl eq_refl eq_refl eq_refl eq_refl)
    as (s' & p' & Hrun & Hl & _ & _ & Hca & Hdm).
  exists s', p'. split_and!; done.
Defined.

End WorkSessions.
(** * Further properties of the code *)

(** ** The sync queue, continued *)

Section SyncQueueMore.
Import SyncService.

Lemma drained_by_one_trigger_per_operation_witness :
  let s := run [AddToQueue create_task_A 1 "op-1";
                AddToQueue update_task_A 2 "op-2"; Offline; Online;
                Settled false] (constructor false) in
  queue (run (successful_triggers 2) s) = []
  /\ remote (run (successful_triggers 2) s)
     = [enqueued create_task_A 1 "op-1"; enqueued update_task_A 2 "op-2"].
Proof.
  intros s.
  assert (Hinv : in_flight_is_head s) by (vm_compute; reflexivity).
  assert (Hidle : idle s) by (vm_compute; reflexivity).
  assert (Hon : isOnline s = true) by (vm_compute; reflexivity).
  destruct (drained_by_one_trigger_per_operation s Hinv Hidle Hon)
    as (Hrem & Hq & _).
  split; [exact Hq|exact Hrem].
Defined.

(** X2. While the service is offline nothing is handed to the remote system:
    calls of [addToQueue] and [processQueue] only make the queue longer. *)
Theorem offline_only_enqueues (es : list Event) (s : State) :
  isOnline s = false -> idle s -> in_flight_is_head s ->
  Forall (fun e => e <> Online) es ->
  let s' := run es s in
  remote s' = remote s
  /\ queue s' = queue s ++ enqueue_sequence es
  /\ awaiting s' = None
  /\ isSyncing s' = false
  /\ isOnline s' = false.
Proof.
  revert s. induction es as [|e es IH]; intros s Hoff Hidle Hinv Hes; simpl.
  - unfold idle, in_flight_is_head in *. rewrite Hidle in Hinv.
    by rewrite app_nil_r.
  - apply Forall_cons in Hes as [He Hes].
    assert (Hstep : isOnline (step s e) = false /\ idle (step s e)
                    /\ remote (step s e) = remote s
                    /\ queue (step s e) = queue s ++ enqueue_sequence [e]).
    { destruct s as [q sy on aw rem sto quo con].
      unfold idle, in_flight_is_head in *. simpl in *. subst on aw sy.
      destruct e as [| |o n u| |[|]|b]; try done;
        unfold step, addToQueue, resume, saveQueue, processQueue; simpl;
        sync_cases; rewrite ?app_nil_r; done. }
    destruct Hstep as (Hoff' & Hidle' & Hrem' & Hq').
    fold (run es (step s e)).
    destruct (IH (step s e) Hoff' Hidle'
                 (in_flight_is_head_step s e Hinv) Hes)
      as (H1 & H2 & H3 & H4 & H5).
    rewrite H1, H2, Hrem', Hq', <- app_assoc.
    repeat split; try done.
    f_equal. destruct e; reflexivity.
Qed.

Lemma offline_only_enqueues_witness :
  let es := [AddToQueue create_task_A 1 "op-1"; ProcessQueue;
             AddToQueue update_task_A 2 "op-2"] in
  remote (run es (constructor false)) = []
  /\ queue (run es (constructor false))
     = [enqueued create_task_A 1 "op-1"; enqueued update_task_A 2 "op-2"].
Proof.
  intros es.
  assert (Hes : Forall (fun e => e <> Online) es)
    by (repeat constructor; discriminate).
  destruct (offline_only_enqueues es (constructor false)
              eq_refl eq_refl eq_refl Hes) as (H1 & H2 & _).
  split; [exact H1|exact H2].
Defined.

(** X3. The persisted queue is written by [addToQueue] and by a successful
    delivery, by nothing else: the [online], [offline] and [processQueue]
    events and a failed delivery leave it as it is, so what an earlier page
    left under ['sync-queue'], which the constructor does not read, stays
    there whatever the queue in memory holds.  From the first [addToQueue]
    on, and from any state in which the two agree, the persisted queue is
    the queue in memory after every event, as long as [localStorage] accepts
    every write. *)
Theorem stored_queue_mirrors_queue (s : State) (es : list Event) :
  quotaExceeded s = false ->
  Forall (fun e => e <> Quota true) es ->
  (stored s = queue s -> stored (run es s) = queue (run es s))
  /\ (forall operation now uuid,
        stored (run (AddToQueue operation now uuid :: es) s)
        = queue (run (AddToQueue operation now uuid :: es) s))
  /\ (Forall (fun e => e ∈ [Online; Offline; ProcessQueue; Settled false]) es ->
      stored (run es s) = stored s).
Proof.
  intros Hq Hes.
  assert (Hgen : forall es s,
             quotaExceeded s = false -> stored s = queue s ->
             Forall (fun e => e <> Quota true) es ->
             stored (run es s) = queue (run es s)).
  { clear. induction es as [|e es IH]; intros s Hq Hs Hes; simpl; [done|].
    apply Forall_cons in Hes as [He Hes].
    apply IH; [| |done].
    - destruct s as [q sy on aw rem sto quo con]. simpl in *. subst.
      destruct e as [| |o n u| |[|]|[|]]; try done; destruct aw;
        unfold step, addToQueue, resume, saveQueue, processQueue; simpl;
        sync_cases.
    - destruct s as [q sy on aw rem sto quo con]. simpl in *. subst.
      destruct e as [| |o n u| |[|]|[|]]; try done; destruct aw;
        unfold step, addToQueue, resume, saveQueue, processQueue; simpl;
        sync_cases. }
  split; [|split].
  - intros Hs. by apply Hgen.
  - intros operation now uuid. simpl. apply Hgen; [| |done].
    + destruct s as [q sy on aw rem sto quo con]. simpl in *. subst.
      unfold addToQueue, saveQueue, processQueue; simpl; sync_cases.
    + destruct s as [q sy on aw rem sto quo con]. simpl in *. subst.
      unfold addToQueue, saveQueue, processQueue; simpl; sync_cases.
  - clear. revert s. induction es as [|e es IH]; intros s Hes; simpl; [done|].
    apply Forall_cons in Hes as [He Hes]. rewrite IH by done.
    destruct s as [q sy on aw rem sto quo con].
    repeat (apply elem_of_cons in He as [->|He]);
      [| | | |by apply elem_of_nil in He];
      try destruct aw;
      unfold step, resume, processQueue; simpl; sync_cases.
Qed.

Lemma stored_queue_mirrors_queue_witness :
  let leftover := [enqueued create_task_A 1 "op-1"] in
  let s := after_reload leftover true in
  stored (run [Online; Offline; ProcessQueue] s) = leftover
  /\ queue (run [Online; Offline; ProcessQueue] s) = []
  /\ stored (run [AddToQueue update_task_A 2 "op-2"; Settled true] s) = [].
Proof.
  intros leftover s.
  assert (Hes : Forall (fun e => e <> Quota true) [Settled true])
    by (repeat constructor; discriminate).
  assert (Hes' : Forall (fun e => e <> Quota true) [Online; Offline; ProcessQueue])
    by (repeat constructor; discriminate).
  destruct (stored_queue_mirrors_queue s [Settled true] eq_refl Hes)
    as (_ & Hadd & _).
  destruct (stored_queue_mirrors_queue s [Online; Offline; ProcessQueue]
              eq_refl Hes') as (_ & _ & Hkeep).
  split; [|split].
  - apply Hkeep. repeat constructor.
  - reflexivity.
  - rewrite Hadd. reflexivity.
Defined.

End SyncQueueMore.

(** ** The read path, continued *)

Section ReadPathMore.
Import Js PayloadPersistenceService.

(** X4. Offline, or when the backend call throws or answers [null], the read
    returns whatever the local store holds for the id and leaves the local
    store as it is. *)
Theorem getWorkspace_falls_back_on_local (i : string) (e : Env) :
  (onLine e = false
   \/ (exists msg, payloadAPI_getWorkspace e i = Throw msg)
   \/ payloadAPI_getWorkspace e i = Ok None) ->
  fst (getWorkspace i e) = localStore e !! i
  /\ localStore (snd (getWorkspace i e)) = localStore e.
Proof.
  unfold getWorkspace, localStore_getWorkspace.
  intros [Hoff|[[msg Hthrow]|Hnull]].
  - by rewrite Hoff.
  - rewrite Hthrow. by destruct (onLine e).
  - rewrite Hnull. by destruct (onLine e).
Qed.

Lemma getWorkspace_falls_back_on_local_witness :
  let l := mkWorkspace "w1" "local copy" (DateOf 100) in
  let e := mkEnv {[ "w1" := l ]} true (fun _ => Throw "Failed to fetch") [] in
  fst (getWorkspace "w1" e) = Some l.
Proof.
  intros l e.
  destruct (getWorkspace_falls_back_on_local "w1" e) as [H _].
  - right. left. by exists "Failed to fetch".
  - rewrite H. apply lookup_singleton_eq.
Defined.

(** X5. A second read of the same id, with the backend answering the same,
    returns what the first read returned and leaves the local store as the
    first read left it. *)
Theorem getWorkspace_twice (i : string) (e : Env) :
  let e1 := snd (getWorkspace i e) in
  fst (getWorkspace i e1) = fst (getWorkspace i e)
  /\ localStore (snd (getWorkspace i e1)) = localStore e1.
Proof.
  unfold getWorkspace, localStore_getWorkspace.
  destruct (onLine e) eqn:Hon; simpl; [|by rewrite Hon].
  destruct (payloadAPI_getWorkspace e i) as [[b|]|msg] eqn:Hb; simpl;
    [|by rewrite Hon, Hb|by rewrite Hon, Hb].
  destruct (localStore e !! i) as [l|] eqn:Hl; simpl.
  - destruct (newer b l) eqn:Hnew; simpl; rewrite Hon, Hb; simpl.
    + destruct (decide (id b = i)) as [<-|Hne].
      * rewrite lookup_insert_eq.
        assert (Hself : newer b b = false).
        { unfold newer, gt. destruct (getTime (updatedAt b)); [|done].
          apply bool_decide_eq_false. lia. }
        by rewrite Hself.
      * rewrite lookup_insert_ne, Hl, Hnew by done. simpl.
        by rewrite insert_insert_eq.
    + by rewrite Hl, Hnew.
  - rewrite Hon, Hb. simpl.
    destruct (decide (id b = i)) as [<-|Hne].
    + rewrite lookup_insert_eq.
      assert (Hself : newer b b = false).
      { unfold newer, gt. destruct (getTime (updatedAt b)); [|done].
        apply bool_decide_eq_false. lia. }
      by rewrite Hself.
    + rewrite lookup_insert_ne, Hl by done. simpl.
      by rewrite insert_insert_eq.
Qed.

(** X6. A timestamp that [new Date] cannot read never wins: a remote copy whose
    [updatedAt] is missing or unparsable does not replace a local copy, and
    neither does any remote copy replace a local copy whose [updatedAt] is
    missing or unparsable. *)
Theorem getWorkspace_unreadable_timestamp_keeps_local (i : string) (e : Env)
  (l b : Workspace) :
  localStore e !! i = Some l ->
  payloadAPI_getWorkspace e i = Ok (Some b) ->
  getTime (updatedAt b) = None \/ getTime (updatedAt l) = None ->
  getWorkspace i e = (Some l, e).
Proof.
  intros Hl Hb Hnan. unfold getWorkspace, localStore_getWorkspace.
  rewrite Hl, Hb.
  assert (Hnew : newer b l = false).
  { unfold newer, gt. destruct Hnan as [-> | ->]; [done|].
    by destruct (getTime (updatedAt b)). }
  rewrite Hnew. by destruct (onLine e).
Qed.

Lemma getWorkspace_unreadable_timestamp_keeps_local_witness :
  let l := mkWorkspace "w1" "local copy" Unparsable in
  let b := mkWorkspace "w1" "remote copy" (DateOf 200) in
  let e := mkEnv {[ "w1" := l ]} true (fun _ => Ok (Some b)) [] in
  getWorkspace "w1" e = (Some l, e).
Proof.
  intros l b e.
  apply (getWorkspace_unreadable_timestamp_keeps_local "w1" e l b).
  - apply lookup_singleton_eq.
  - reflexivity.
  - right. reflexivity.
Defined.

End ReadPathMore.

(** ** Saving a workspace *)

Section SaveWorkspace.
Import Js.

(** X7. After [saveWorkspace], the workspace is what the local store holds under
    its id, the queue has one more entry, at its end, of type
    [saveWorkspace], and everything queued before is still there in the same
    order; a read of that id while [navigator.onLine] is false returns the
    saved workspace. *)
Theorem saveWorkspace_local_first (encode : PayloadPersistenceService.Workspace -> string)
  (w : PayloadPersistenceService.Workspace) (now : Z) (uuid : string)
  (svc : OfflineFirst.Service) :
  let svc' := OfflineFirst.saveWorkspace encode w now uuid svc in
  PayloadPersistenceService.localStore (OfflineFirst.env svc')
    !! PayloadPersistenceService.id w = Some w
  /\ SyncService.queue (OfflineFirst.syncService svc')
     = SyncService.queue (OfflineFirst.syncService svc)
       ++ [SyncService.mkQueued "saveWorkspace" (encode w) now uuid]
  /\ SyncService.remote (OfflineFirst.syncService svc')
     = SyncService.remote (OfflineFirst.syncService svc)
  /\ (PayloadPersistenceService.onLine (OfflineFirst.env svc) = false ->
      fst (OfflineFirst.getWorkspace (PayloadPersistenceService.id w) svc')
      = Some w).
Proof.
  intros svc'. subst svc'.
  destruct svc as [e s]. simpl.
  split; [apply lookup_insert_eq|]. split; [|split].
  - destruct s as [q sy on aw rem sto quo con].
    unfold SyncService.addToQueue, SyncService.saveQueue,
      SyncService.processQueue; simpl.
    sync_cases.
  - destruct s as [q sy on aw rem sto quo con].
    unfold SyncService.addToQueue, SyncService.saveQueue,
      SyncService.processQueue; simpl.
    sync_cases.
  - intros Hoff. unfold OfflineFirst.getWorkspace,
      PayloadPersistenceService.getWorkspace,
      PayloadPersistenceService.localStore_getWorkspace. simpl.
    rewrite Hoff. simpl. apply lookup_insert_eq.
Qed.

Lemma saveWorkspace_local_first_witness :
  let w := PayloadPersistenceService.mkWorkspace "w1" "draft" (DateOf 100) in
  let svc :=
    OfflineFirst.mkService
      (PayloadPersistenceService.mkEnv ∅ false (fun _ => Throw "offline") [])
      (SyncService.constructor false) in
  fst (OfflineFirst.getWorkspace "w1"
         (OfflineFirst.saveWorkspace PayloadPersistenceService.name w 5 "op-1" svc))
  = Some w.
Proof.
  intros w svc.
  destruct (saveWorkspace_local_first PayloadPersistenceService.name w 5 "op-1" svc)
    as (_ & _ & _ & H).
  apply H. reflexivity.
Defined.

End SaveWorkspace.

(** ** Local persistence, continued *)

Section LocalPersistenceMore.
Import Js LocalStore.

(** X8. A change of state through [usePersistentState] comes back when the
    component is mounted again over the same storage, provided the storage
    took the write, the text is not empty and [deserialize] undoes
    [serialize] on it.  (Setting the value already held writes nothing, so
    nothing is promised for it.) *)
Theorem usePersistentState_survives_reload {T : Type} `{EqDecision T}
  (key : string) (initialValue value : T) (serialize : T -> outcome string)
  (deserialize : string -> outcome T) (text : string) (c : T * World) :
  value <> fst c ->
  denied (localStorage (snd c)) = false ->
  full (localStorage (snd c)) = false ->
  serialize value = Ok text ->
  nonempty text = true ->
  deserialize text = Ok value ->
  let c' := setState key serialize (inl value) c in
  fst c' = value
  /\ items (localStorage (snd c')) !! key = Some text
  /\ fst (initialState key initialValue deserialize (snd c')) = value
  /\ fst (mount key initialValue serialize deserialize (snd c')) = value
  /\ console (snd c') = console (snd c).
Proof.
  intros Hchange Hd Hf Hser Hne Hde c'. subst c'.
  destruct c as [state [[it d f] con]]. simpl in *. subst d f.
  unfold mount, setState, writeEffect, initialState, setItem, getItem. simpl.
  rewrite decide_False by done. simpl.
  rewrite Hser. simpl.
  rewrite lookup_insert_eq, Hne, Hde. simpl. done.
Qed.

Lemma usePersistentState_survives_reload_witness :
  let w := mkWorld (mkStorage ∅ false false) [] in
  fst (initialState "theme" "light" (fun s => Ok s)
         (snd (setState "theme" (fun v : string => Ok v) (inl "dark") ("light", w))))
  = "dark".
Proof.
  intros w.
  assert (Hchange : "dark" <> fst ("light", w)) by discriminate.
  destruct (usePersistentState_survives_reload "theme" "light" "dark"
              (fun v : string => Ok v) (fun s => Ok s) "dark" ("light", w)
              Hchange eq_refl eq_refl eq_refl eq_refl eq_refl)
    as (_ & _ & H & _).
  exact H.
Defined.

(** X9. A change of state to a value whose serialised text is the empty
    string is written but not read back: the stored text counts as absent,
    and the next mount starts from [initialValue]. *)
Theorem usePersistentState_empty_text_is_lost {T : Type} `{EqDecision T}
  (key : string) (initialValue value : T) (serialize : T -> outcome string)
  (deserialize : string -> outcome T) (c : T * World) :
  value <> fst c ->
  denied (localStorage (snd c)) = false ->
  full (localStorage (snd c)) = false ->
  serialize value = Ok "" ->
  let c' := setState key serialize (inl value) c in
  fst c' = value
  /\ items (localStorage (snd c')) !! key = Some ""
  /\ fst (initialState key initialValue deserialize (snd c')) = initialValue.
Proof.
  intros Hchange Hd Hf Hser c'. subst c'.
  destruct c as [state [[it d f] con]]. simpl in *. subst d f.
  unfold setState, writeEffect, initialState, setItem, getItem. simpl.
  rewrite decide_False by done. simpl.
  rewrite Hser. simpl.
  by rewrite lookup_insert_eq.
Qed.

Lemma usePersistentState_empty_text_is_lost_witness :
  let w := mkWorld (mkStorage ∅ false false) [] in
  fst (initialState "note" "untitled" (fun s => Ok s)
         (snd (setState "note" (fun v : string => Ok v) (inl "") ("draft", w))))
  = "untitled".
Proof.
  intros w.
  assert (Hchange : "" <> fst ("draft", w)) by discriminate.
  destruct (usePersistentState_empty_text_is_lost "note" "untitled" ""
              (fun v : string => Ok v) (fun s => Ok s) ("draft", w)
              Hchange eq_refl eq_refl eq_refl) as (_ & _ & H).
  exact H.
Defined.

(** X10. [MockElectronStore]: a value set under a key other than [__proto__]
    is read back by a store constructed later over the same [localStorage],
    whatever its defaults, provided the storage took the write and
    [JSON.parse] undoes [JSON.stringify] on the store.  Under the key
    [__proto__], which the store does not hold as its own, a primitive value
    is dropped: the store is persisted as it was, and a later store answers
    a read of that key with the prototype. *)
Theorem MockElectronStore_survives_reload {V : Type}
  (JSON_parse : string -> outcome (gmap string V))
  (JSON_stringify : gmap string V -> outcome string)
  (primitive : V -> bool)
  (store defaults : gmap string V) (w : World) (k : string)
  (value other : V) (text : string) :
  denied (localStorage w) = false ->
  full (localStorage w) = false ->
  nonempty text = true ->
  (k <> "__proto__" ->
   JSON_stringify (<[k := value]> store) = Ok text ->
   JSON_parse text = Ok (<[k := value]> store) ->
   exists w',
     set JSON_stringify primitive k value (store, w)
     = Some (<[k := value]> store, w')
     /\ items (localStorage w') !! "electron-store-mock" = Some text
     /\ get (fst (constructor JSON_parse defaults w')) k other = Val value
     /\ console (snd (constructor JSON_parse defaults w')) = console w)
  /\ (k = "__proto__" ->
      store !! k = None -> defaults !! k = None ->
      primitive value = true ->
      JSON_stringify store = Ok text ->
      JSON_parse text = Ok store ->
      exists w',
        set JSON_stringify primitive k value (store, w) = Some (store, w')
        /\ items (localStorage w') !! "electron-store-mock" = Some text
        /\ get (fst (constructor JSON_parse defaults w')) k other
           = Inherited k).
Proof.
  intros Hd Hf Hne.
  destruct w as [[it d f] con]. simpl in *. subst d f.
  split.
  - intros Hk Hser Hparse.
    assert (Hassign : assign primitive k value store = Some (<[k := value]> store)).
    { unfold assign. destruct (store !! k); [done|].
      by rewrite bool_decide_eq_false_2. }
    unfold set. simpl. rewrite Hassign.
    eexists. split; [reflexivity|].
    unfold persist, constructor, loadFromLocalStorage, get, setItem, getItem.
    simpl. rewrite Hser. simpl.
    rewrite lookup_insert_eq, Hne, Hparse. simpl.
    rewrite lookup_union, lookup_insert_eq.
    split; [done|]. split; [|done]. by destruct (defaults !! k).
  - intros -> Hown Hdef Hprim Hser Hparse.
    assert (Hassign : assign primitive "__proto__" value store = Some store).
    { unfold assign. rewrite Hown, Hprim. reflexivity. }
    unfold set. simpl. rewrite Hassign.
    eexists. split; [reflexivity|].
    unfold persist, constructor, loadFromLocalStorage, get, setItem, getItem.
    simpl. rewrite Hser. simpl.
    rewrite lookup_insert_eq, Hne, Hparse. simpl.
    rewrite lookup_union, Hown, Hdef. simpl. done.
Qed.

Lemma MockElectronStore_survives_reload_witness :
  let w := mkWorld (mkStorage ∅ false false) [] in
  let parse := fun _ : string => Ok (<["theme" := "dark"]> (∅ : gmap string string)) in
  let stringify := fun _ : gmap string string => Ok "{theme:dark}" in
  exists w',
    set stringify (fun _ => true) "theme" "dark" (∅, w)
    = Some (<["theme" := "dark"]> ∅, w')
    /\ get (fst (constructor parse {[ "theme" := "light" ]} w')) "theme" "system"
       = Val "dark".
Proof.
  intros w parse stringify.
  destruct (MockElectronStore_survives_reload parse stringify (fun _ => true) ∅
              {[ "theme" := "light" ]} w "theme" "dark" "system" "{theme:dark}"
              eq_refl eq_refl eq_refl) as [Hset _].
  assert (Hk : "theme" <> "__proto__") by discriminate.
  destruct (Hset Hk eq_refl eq_refl) as (w' & Hrun & _ & Hget & _).
  exists w'. split; [exact Hrun|exact Hget].
Defined.

End LocalPersistenceMore.

(** ** Recovery points *)

Section RecoveryPoints.
Import SessionProvider.

Lemma stateKey_of_inj (session t1 t2 : string) :
  stateKey_of session t1 = stateKey_of session t2 -> t1 = t2.
Proof.
  unfold stateKey_of. intros H.
  assert (Hinj : forall p a b : string, (p ++ a = p ++ b)%string -> a = b).
  { induction p as [|c p IH]; simpl; intros a b Hab; [done|].
    injection Hab as Hab. by apply IH. }
  apply Hinj in H. apply Hinj in H. by apply Hinj in H.
Qed.

(** X11. [createRecoveryPoint] returns the id of a new recovery point put at the
    end of the list, leaves the earlier points as they are, and the snapshot
    it took is what the storage holds under the new point's [stateKey];
    nothing else in the storage changes. *)
Theorem createRecoveryPoint_appends {AppState : Type}
  (text : string) (type context : option string) (now uuid : string)
  (currentState : AppState) (p : Provider) :
  let (rid, p') :=
    createRecoveryPoint text type context now uuid currentState p in
  exists point,
    recoveryPoints p' = recoveryPoints p ++ [point]
    /\ id point = rid /\ rid = uuid
    /\ description point = text
    /\ snapshotType point = default "auto" type
    /\ storage p' !! stateKey point = Some currentState
    /\ (forall k, k <> stateKey point -> storage p' !! k = storage p !! k)
    /\ sessionId p' = sessionId p.
Proof.
  simpl. eexists. repeat split; simpl; unfold storage_set.
  - apply lookup_insert_eq.
  - intros k Hk. by apply lookup_insert_ne.
Qed.

(** X12. Two recovery points taken one after the other: the snapshot of the
    first is still under its [stateKey] afterwards exactly when the two were
    taken at different timestamps; taken at the same timestamp they share
    one [stateKey], and it holds the second snapshot. *)
Theorem later_recovery_point_and_earlier_snapshot {AppState : Type}
  (text1 text2 : string) (type1 type2 context1 context2 : option string)
  (now1 now2 uuid1 uuid2 : string) (state1 state2 : AppState) (p : Provider) :
  let p1 := snd (createRecoveryPoint text1 type1 context1 now1 uuid1 state1 p) in
  let p2 := snd (createRecoveryPoint text2 type2 context2 now2 uuid2 state2 p1) in
  exists point1 point2,
    recoveryPoints p2 = recoveryPoints p ++ [point1; point2]
    /\ id point1 = uuid1 /\ id point2 = uuid2
    /\ (stateKey point1 = stateKey point2 <-> now1 = now2)
    /\ storage p2 !! stateKey point2 = Some state2
    /\ storage p2 !! stateKey point1
       = Some (if decide (now1 = now2) then state2 else state1).
Proof.
  simpl. eexists _, _. split; [by rewrite <- app_assoc|].
  simpl. unfold storage_set. repeat split.
  - apply stateKey_of_inj.
  - by intros ->.
  - apply lookup_insert_eq.
  - destruct (decide (now1 = now2)) as [->|Hne].
    + apply lookup_insert_eq.
    + rewrite lookup_insert_ne; [apply lookup_insert_eq|].
      intros Heq. apply Hne. symmetry. by apply stateKey_of_inj in Heq.
Qed.

End RecoveryPoints.

(** ** SafeSessionManager *)

Section SafeManager.
Import Js SafeSessionManager.

(** X13. [getWindowId] always yields a usable id: the manager's own whenever
    there is a manager and its answer is a non-empty string, and the fresh
    UUID before [initialize], on an empty answer and, with a log entry, on a
    throw. *)
Theorem getWindowId_never_empty (manager : option WorkSessionManager)
  (uuid : string) :
  LocalStore.nonempty uuid = true ->
  LocalStore.nonempty (fst (getWindowId manager uuid)) = true
  /\ (forall w, manager = Some (mkManager (Ok w)) ->
                LocalStore.nonempty w = true ->
                getWindowId manager uuid = (w, []))
  /\ (manager = None \/ manager = Some (mkManager (Ok "")) ->
      getWindowId manager uuid = (uuid, []))
  /\ (forall msg, manager = Some (mkManager (Throw msg)) ->
                  getWindowId manager uuid = (uuid, ["Error in getWindowId:"])).
Proof.
  intros Hu. split; [|split; [|split]].
  - unfold getWindowId.
    destruct manager as [[[w|msg]]|]; simpl; [|done|done].
    by destruct (LocalStore.nonempty w) eqn:Hw.
  - intros w -> Hw. unfold getWindowId. simpl. by rewrite Hw.
  - by intros [->| ->].
  - by intros msg ->.
Qed.

Lemma getWindowId_never_empty_witness :
  getWindowId (Some (mkManager (Ok "window-7"))) "uuid-1" = ("window-7", [])
  /\ getWindowId (Some (mkManager (Throw "not ready"))) "uuid-1"
     = ("uuid-1", ["Error in getWindowId:"])
  /\ LocalStore.nonempty (fst (getWindowId None "uuid-1")) = true.
Proof.
  assert (Hu : LocalStore.nonempty "uuid-1" = true) by reflexivity.
  split; [|split].
  - destruct (getWindowId_never_empty (Some (mkManager (Ok "window-7")))
                "uuid-1" Hu) as (_ & Hown & _).
    apply Hown; reflexivity.
  - reflexivity.
  - reflexivity.
Defined.

End SafeManager.

(** ** Prompt routing and the LLM service *)

Section LLMFacts.
Import Js LLM.

Lemma prefix_app (sub rest : string) : String.prefix sub (sub ++ rest) = true.
Proof.
  induction sub as [|c sub IH]; simpl; [by destruct rest|].
  by destruct (Ascii.ascii_dec c c).
Qed.

Lemma prefix_split (sub s : string) :
  String.prefix sub s = true -> exists rest, s = (sub ++ rest)%string.
Proof.
  revert s. induction sub as [|c sub IH]; intros s H.
  - by exists s.
  - destruct s as [|c' s]; simpl in H; [done|].
    destruct (Ascii.ascii_dec c c') as [->|]; [|done].
    destruct (IH s H) as [rest ->]. by exists rest.
Qed.

(** [includes] is the substring test. *)
Lemma includes_spec (s sub : string) :
  includes s sub = true <-> exists a b, s = (a ++ sub ++ b)%string.
Proof.
  split.
  - induction s as [|c s IH].
    + destruct sub as [|c sub]; [|done].
      intros _. by exists ""%string, ""%string.
    + change (includes (String c s) sub)
        with (if String.prefix sub (String c s) then true else includes s sub).
      destruct (String.prefix sub (String c s)) eqn:Hp.
      * intros _. apply prefix_split in Hp as [rest Hp].
        exists ""%string, rest. exact Hp.
      * intros H. destruct (IH H) as (a & b & ->). by exists (String c a), b.
  - intros (a & b & ->). induction a as [|c a IH].
    + change ("" ++ sub ++ b)%string with (sub ++ b)%string.
      pose proof (prefix_app sub b) as Hp.
      destruct (sub ++ b)%string; simpl in *; by rewrite Hp.
    + change (includes (String c a ++ sub ++ b) sub)
        with (if String.prefix sub (String c (a ++ sub ++ b)) then true
              else includes (a ++ sub ++ b) sub).
      rewrite IH. by destruct (String.prefix sub _).
Qed.

(** X14. [routePrompt] only ever names a model that [modelConfig] configures,
    and a prompt that contains "code" or "function" goes to the code model
    whatever task was asked for, a reasoning task included. *)
Theorem routePrompt_names_a_configured_model (prompt : string)
  (task : option string) :
  is_Some (modelConfig !! routePrompt prompt task)
  /\ (forall a b, (prompt = a ++ "code" ++ b \/ prompt = a ++ "function" ++ b)%string ->
                  routePrompt prompt task = "deepseek-coder").
Proof.
  split.
  - unfold routePrompt.
    repeat match goal with
           | |- context [if ?c then _ else _] => destruct c
           end; vm_compute; eauto.
  - intros a b Hp. unfold routePrompt.
    assert (Hinc : includes prompt "code" || includes prompt "function" = true).
    { apply orb_true_iff.
      destruct Hp as [Hp|Hp]; [left|right]; apply includes_spec; eauto. }
    rewrite <- orb_assoc, Hinc. by rewrite orb_true_r.
Qed.

Lemma routePrompt_names_a_configured_model_witness :
  routePrompt "explain this function" (Some "reasoning") = "deepseek-coder".
Proof.
  destruct (routePrompt_names_a_configured_model "explain this function"
              (Some "reasoning")) as [_ H].
  apply (H "explain this " ""). right. reflexivity.
Defined.

(** X15. [loadModel] refuses to pull while Ollama does not answer the version
    check with an ok response: it throws, no pull request is made and no
    model is marked as loaded. *)
Theorem loadModel_needs_ollama (ollama : Ollama) (modelName : string)
  (s : Service) :
  isOllamaRunning s = false ->
  api_version ollama = Ok false \/ (exists msg, api_version ollama = Throw msg) ->
  let (r, s') := loadModel ollama modelName s in
  r = Throw "Ollama is not running"
  /\ models s' = models s
  /\ isOllamaRunning s' = false
  /\ fetched s' = fetched s ++ ["http://localhost:11434/api/version"]
  /\ console s' = console s.
Proof.
  intros Hoff Hv. unfold loadModel, checkOllamaStatus. rewrite Hoff.
  destruct Hv as [-> | [msg ->]]; simpl; done.
Qed.

Lemma loadModel_needs_ollama_witness :
  fst (loadModel (mkOllama (Throw "ECONNREFUSED") (fun _ => Ok true)
                           (fun _ _ _ => Ok (Ok (Some "hi"))))
                 "llama3" constructor_fields)
  = Throw "Ollama is not running".
Proof.
  pose proof (loadModel_needs_ollama
                (mkOllama (Throw "ECONNREFUSED") (fun _ => Ok true)
                          (fun _ _ _ => Ok (Ok (Some "hi"))))
                "llama3" constructor_fields eq_refl
                (or_intror (ex_intro _ "ECONNREFUSED" eq_refl))) as H.
  destruct (loadModel _ "llama3" constructor_fields) as [r s'].
  destruct H as [H _]. exact H.
Defined.

(** X16. With Ollama running, [loadModel] marks the model as loaded and returns
    true as soon as the pull request gets any response, an error status
    included; only when the request itself throws does it return false, log,
    and leave the models as they were.  It never throws then. *)
Theorem loadModel_trusts_any_response (ollama : Ollama) (modelName : string)
  (s : Service) :
  isOllamaRunning s = true ->
  let (r, s') := loadModel ollama modelName s in
  (forall ok, api_pull ollama modelName = Ok ok ->
              r = Ok true /\ loaded modelName s' = true
              /\ (forall other, other <> modelName ->
                                models s' !! other = models s !! other)
              /\ console s' = console s)
  /\ (forall msg, api_pull ollama modelName = Throw msg ->
                  r = Ok false /\ models s' = models s
                  /\ console s'
                     = console s ++ [("Error loading model " ++ modelName ++ ":")%string])
  /\ fetched s' = fetched s ++ ["http://localhost:11434/api/pull"]
  /\ isOllamaRunning s' = true.
Proof.
  intros Hon. unfold loadModel. rewrite Hon. simpl. rewrite Hon. simpl.
  destruct (api_pull ollama modelName) as [ok|msg]; simpl.
  - split; [|split; [done|done]].
    intros ok' _. split; [done|]. split; [|split; [|done]].
    + unfold loaded, mark_loaded. simpl.
      destruct (models s !! modelName) eqn:Hm;
        [by rewrite lookup_insert_eq|].
      case_bool_decide as Hk; [|by rewrite lookup_insert_eq].
      rewrite Hm. by subst.
    + intros other Hne. unfold mark_loaded. simpl.
      destruct (models s !! modelName);
        [by rewrite lookup_insert_ne|].
      case_bool_decide; [done|by rewrite lookup_insert_ne].
  - split; [done|]. split; [|done].
    intros msg' _. done.
Qed.

Lemma loadModel_trusts_any_response_witness :
  let ollama := mkOllama (Ok true) (fun _ => Ok false)
                         (fun _ _ _ => Ok (Ok (Some "hi"))) in
  let s := checkOllamaStatus ollama constructor_fields in
  fst (loadModel ollama "no-such-model" s) = Ok true.
Proof.
  intros ollama s.
  pose proof (loadModel_trusts_any_response ollama "no-such-model" s eq_refl)
    as H.
  destruct (loadModel ollama "no-such-model" s) as [r s'].
  destruct H as [H _]. by destruct (H false eq_refl) as [-> _].
Defined.



(** X18. [generateResponse] does not look at what [loadModel] returns: for a
    model whose entry in [models] is not truthy (never loaded, and not named
    as a member of [Object.prototype]), when the pull request throws, the
    generate request is made all the same and its answer is the result; the
    model stays unloaded, the failed pull is in the log. *)
Theorem generateResponse_ignores_failed_pull (ollama : Ollama)
  (prompt modelName params : string) (s : Service) (msg : string)
  (answer : option string) :
  loaded modelName s = false ->
  isOllamaRunning s = true ->
  api_pull ollama modelName = Throw msg ->
  api_generate ollama modelName prompt params = Ok (Ok answer) ->
  let (r, s') := generateResponse ollama prompt modelName params s in
  r = Ok answer
  /\ loaded modelName s' = false
  /\ fetched s' = fetched s ++ ["http://localhost:11434/api/pull";
                                "http://localhost:11434/api/generate"]
  /\ console s' = console s ++ [("Error loading model " ++ modelName ++ ":")%string].
Proof.
  intros Hl Hon Hpull Hgen. unfold generateResponse. rewrite Hl. simpl.
  unfold loadModel. rewrite Hon. simpl. rewrite Hon. simpl.
  rewrite Hpull. simpl. rewrite Hgen. simpl.
  repeat split; try done. by rewrite <- app_assoc.
Qed.

Lemma generateResponse_ignores_failed_pull_witness :
  let ollama := mkOllama (Ok true) (fun _ => Throw "network down")
                         (fun _ _ _ => Ok (Ok (Some "hi"))) in
  let s := checkOllamaStatus ollama constructor_fields in
  fst (generateResponse ollama "hello" "llama3" "{}" s) = Ok (Some "hi").
Proof.
  intros ollama s.
  pose proof (generateResponse_ignores_failed_pull ollama "hello" "llama3" "{}"
                s "network down" (Some "hi")
                eq_refl eq_refl eq_refl eq_refl) as H.
  destruct (generateResponse ollama "hello" "llama3" "{}" s) as [r s'].
  destruct H as [H _]. exact H.
Defined.

End LLMFacts.

(** ** Work item filters *)

Section Filters.
Import WorkItemFilters.

(** X19. [applyFilters] returns the items of the list that pass every filter that
    is set, in their order in the list: each returned item has the status and
    the priority asked for and a title that contains the search text, both
    in lower case; filtering the result again changes nothing; and with no
    filter set the whole list comes back. *)
Theorem applyFilters_selects (toLowerCase : string -> string)
  (filters : Filters) (workItems : list WorkItem) :
  let result := applyFilters toLowerCase filters workItems in
  result `sublist_of` workItems
  /\ (forall item,
        item ∈ result ->
        item ∈ workItems
        /\ (forall s, set_filter (f_status filters) = Some s -> status item = s)
        /\ (forall p, set_filter (f_priority filters) = Some p -> priority item = p)
        /\ (forall q, set_filter (f_search filters) = Some q ->
                      exists a b,
                        toLowerCase (title item)
                        = (a ++ toLowerCase q ++ b)%string))
  /\ applyFilters toLowerCase filters result = result
  /\ (set_filter (f_status filters) = None ->
      set_filter (f_priority filters) = None ->
      set_filter (f_search filters) = None ->
      result = workItems).
Proof.
  intros result. subst result. unfold applyFilters.
  split; [apply sublist_filter|]. split; [|split].
  - intros item Hin. apply list_elem_of_filter in Hin as [Hk Hin].
    split; [done|]. unfold keeps in Hk.
    apply andb_true_iff in Hk as [Hk Hsearch].
    apply andb_true_iff in Hk as [Hstatus Hpriority].
    repeat split.
    + intros s Hs. rewrite Hs in Hstatus. by apply bool_decide_eq_true in Hstatus.
    + intros p Hp. rewrite Hp in Hpriority.
      by apply bool_decide_eq_true in Hpriority.
    + intros q Hq. rewrite Hq in Hsearch. by apply includes_spec.
  - by apply list_filter_filter_l.
  - intros Hs Hp Hq. induction workItems as [|x l IH]; [done|].
    rewrite filter_cons_True; [by rewrite IH|].
    unfold keeps. by rewrite Hs, Hp, Hq.
Qed.

Lemma applyFilters_selects_witness :
  let items := [mkWorkItem "1" "Fix login" "open" "high";
                mkWorkItem "2" "Write docs" "done" "low"] in
  applyFilters (fun s => s) (mkFilters (Some "") None None) items = items.
Proof.
  intros items.
  destruct (applyFilters_selects (fun s => s) (mkFilters (Some "") None None)
              items) as (_ & _ & _ & H).
  apply H; reflexivity.
Defined.

End Filters.

(** ** The hooks of the other collections *)

Section CollectionHooks.
Import Js Collections.

(** X20. After the tasks hook, [completedDate] follows the [status] of the
    data the hook is handed (on an update that does not name the status,
    Payload hands it the stored one): a completed task has a
    [completedDate], the one the data carried or else the current time, and
    a task of any other status gets [completedDate: null], losing the date
    it carried; the status itself is never changed. *)
Theorem tasks_completedDate_follows_status (data : TaskData)
  (req_user : option string) (operation : HookOperation) (now : Z) :
  let data' := tasks_beforeChange data req_user operation now in
  t_status data' = t_status data
  /\ t_lastUpdated data' = DateOf now
  /\ (t_status data = Some "completed" ->
      truthy (t_completedDate data') = true
      /\ t_completedDate data'
         = if truthy (t_completedDate data) then t_completedDate data
           else DateOf now)
  /\ (t_status data <> Some "completed" -> t_completedDate data' = Null).
Proof.
  destruct data as [st ca cb lu cd]. unfold tasks_beforeChange.
  destruct operation; simpl;
    (case_bool_decide as Hst; simpl;
     [destruct (truthy cd) eqn:Hcd; simpl; repeat split; try done
     |repeat split; try done]).
Qed.

Lemma tasks_completedDate_follows_status_witness :
  let reopened :=
    mkTaskData (Some "in-progress") (DateOf 100) (Some "u1") (DateOf 900)
               (DateOf 900) in
  t_completedDate (tasks_beforeChange reopened (Some "u1") update 5000) = Null.
Proof.
  intros reopened.
  destruct (tasks_completedDate_follows_status reopened (Some "u1") update 5000)
    as (_ & _ & _ & H).
  apply H. discriminate.
Defined.

(** X21. The projects and workspaces hooks keep what they once stamped: run
    again, at a later time and for another user, on data that went through
    the hook before, they change [lastUpdated] only.  On data that carries no
    [createdAt] they stamp the current time, and the projects hook the
    current user as creator, whatever the operation. *)
Theorem stamps_are_kept (data : StampedData) (u1 u2 : option string)
  (t1 t2 : Z) :
  (let once := projects_beforeChange data u1 t1 in
   projects_beforeChange once u2 t2
   = mkStamped (createdAt once) (createdBy once) (DateOf t2) (owner once))
  /\ (u1 <> None ->
      let once := workspaces_beforeChange data u1 t1 in
      workspaces_beforeChange once u2 t2
      = mkStamped (createdAt once) (createdBy once) (DateOf t2) (owner once))
  /\ (truthy (createdAt data) = false ->
      createdAt (projects_beforeChange data u1 t1) = DateOf t1
      /\ createdAt (workspaces_beforeChange data u1 t1) = DateOf t1
      /\ (forall u, u1 = Some u ->
                    createdBy (projects_beforeChange data u1 t1) = Some u)).
Proof.
  destruct data as [ca cb lu ow].
  unfold projects_beforeChange, workspaces_beforeChange. simpl.
  split; [|split].
  - by destruct (truthy ca) eqn:Hca; simpl; rewrite ?Hca.
  - intros Hu. destruct u1 as [u|]; [|done].
    destruct (truthy ca) eqn:Hca, ow, u2; simpl; by rewrite ?Hca.
  - intros ->. simpl. split; [done|]. split; [by destruct ow, u1|].
    by intros u ->.
Qed.

Lemma stamps_are_kept_witness :
  let data := mkStamped Undefined None Undefined None in
  owner (workspaces_beforeChange
           (workspaces_beforeChange data (Some "u1") 10) (Some "u2") 20)
  = Some "u1"
  /\ createdAt (projects_beforeChange data (Some "u2") 20) = DateOf 20.
Proof.
  intros data.
  destruct (stamps_are_kept data (Some "u1") (Some "u2") 10 20)
    as (_ & Hw & _).
  destruct (stamps_are_kept data (Some "u2") None 20 30) as (_ & _ & Hp).
  split.
  - rewrite Hw by discriminate. reflexivity.
  - by destruct (Hp eq_refl) as [-> _].
Defined.

End CollectionHooks.

(** ** Work sessions, continued *)

Section WorkSessionsMore.
Import Js Sessions.

Lemma touches_only_refl (i : string) (p : Payload) : Server.touches_only i p p.
Proof. by repeat split. Qed.

Lemma touches_only_trans (i : string) (p1 p2 p3 : Payload) :
  Server.touches_only i p1 p2 -> Server.touches_only i p2 p3 ->
  Server.touches_only i p1 p3.
Proof.
  intros (Hf & Hc & Hi & Hl) (Hf' & Hc' & Hi' & Hl').
  repeat split; try congruence.
  intros j Hj. by rewrite Hl', Hl.
Qed.

Lemma update_session_touches_only (i : string) (data : SessionData)
  (p : Payload) :
  Server.touches_only i p (snd (update_session i data p))
  /\ users (snd (update_session i data p)) = users p.
Proof.
  unfold update_session.
  destruct (faults p UpdateSession); [split; [apply touches_only_refl|done]|].
  destruct (lookup_session i (sessions p)) as [doc|] eqn:Hl;
    [|split; [apply touches_only_refl|done]].
  pose proof (lookup_session_id _ _ _ Hl) as Hid.
  split; [|done]. repeat split; simpl.
  - by apply replace_session_ids.
  - intros j Hj. by apply lookup_replace_ne.
Qed.

Lemma touches_only_console_error (i msg : string) (p p' : Payload) :
  Server.touches_only i p p' -> Server.touches_only i p (console_error msg p').
Proof. intros (? & ? & ? & ?). by repeat split. Qed.

Lemma update_user_keeps_sessions (i : string) (t : Z) (p : Payload) :
  let p' := snd (update_user_lastActive i t p) in
  sessions p' = sessions p /\ faults p' = faults p /\ clock p' = clock p.
Proof.
  unfold update_user_lastActive.
  destruct (faults p UpdateUser); [done|].
  by destruct (lookup_user i (users p)).
Qed.

(** The middleware always ends normally, and what it writes of the sessions
    is confined to the user's first active one. *)
Lemma trackActivity_frame (u : User) (p : Payload) :
  fst (trackActivity (Some u) p) = Ok tt
  /\ match first_active_session (u_id u) (sessions p) with
     | Some s => Server.touches_only (id s) p (snd (trackActivity (Some u) p))
     | None => sessions (snd (trackActivity (Some u) p)) = sessions p
     end.
Proof.
  unfold trackActivity, try_catch, bind, new_Date.
  pose proof (update_user_keeps_sessions (u_id u) (clock p) p) as Hup.
  destruct (update_user_lastActive (u_id u) (clock p) p) as [[u'|msg] p1];
    simpl in Hup; destruct Hup as (Hs1 & Hf1 & Hc1);
    (assert (H01 : forall i, Server.touches_only i p p1)
      by (intros i; unfold Server.touches_only; by rewrite Hs1, Hf1, Hc1)).
  2:{ simpl. split; [done|].
      destruct (first_active_session _ _); [|done].
      apply touches_only_console_error, H01. }
  unfold find, first_active_session. rewrite Hs1.
  destruct (faults p1 FindSessions).
  { simpl. split; [done|].
    destruct (head _); [|done].
    apply touches_only_console_error, H01. }
  destruct (filter _ (sessions p)) as [|s rest]; simpl; [done|].
  specialize (H01 (id s)).
  pose proof (update_session_touches_only (id s)
                (set_lastActive (DateOf (clock p)) no_data) p1) as [H12 _].
  destruct (update_session (id s) _ p1) as [[doc|msg] p2]; simpl in H12.
  2:{ simpl. split; [done|].
      apply touches_only_console_error.
      by apply (touches_only_trans _ p p1). }
  pose proof (touches_only_trans _ _ _ _ H01 H12) as H02.
  destruct (gt _ _).
  - pose proof (update_session_touches_only (id s)
                  (set_status paused no_data) p2) as [H23 _].
    destruct (update_session (id s) _ p2) as [[doc'|msg] p3]; simpl in *.
    + split; [done|]. by apply (touches_only_trans _ p p2).
    + split; [done|]. apply touches_only_console_error.
      by apply (touches_only_trans _ p p2).
  - simpl. split; [done|]. exact H02.
Qed.

(** The middleware leaves the faults of the persistence layer alone. *)
Lemma trackActivity_faults (req_user : option User) (p : Payload) :
  faults (snd (trackActivity req_user p)) = faults p.
Proof.
  destruct req_user as [u|]; [|done].
  unfold trackActivity, try_catch, bind, new_Date.
  pose proof (update_user_keeps_sessions (u_id u) (clock p) p) as Hup.
  destruct (update_user_lastActive (u_id u) (clock p) p) as [[u'|msg] p1];
    simpl in Hup; destruct Hup as (_ & Hf1 & _); [|done].
  unfold find.
  destruct (faults p1 FindSessions); [done|].
  destruct (take 1 _) as [|s rest]; simpl; [done|].
  pose proof (update_session_touches_only (id s)
                (set_lastActive (DateOf (clock p)) no_data) p1) as [[Hf2 _] _].
  destruct (update_session (id s) _ p1) as [[doc|msg] p2]; simpl in Hf2;
    [|simpl; congruence].
  destruct (gt _ _); [|simpl; congruence].
  pose proof (update_session_touches_only (id s)
                (set_status paused no_data) p2) as [[Hf3 _] _].
  destruct (update_session (id s) _ p2) as [[doc'|msg] p3]; simpl in *;
    congruence.
Qed.

(** The resume handler always answers, and writes only when it answers 200. *)
Lemma resumeSession_answers (req_user : option User) (i : string)
  (p : Payload) :
  exists resp,
    fst (resumeSession req_user i p) = Ok resp
    /\ (code resp = 200 \/ code resp = 401 \/ code resp = 403
        \/ code resp = 500)%nat
    /\ (code resp <> 200%nat -> snd (resumeSession req_user i p) = p).
Proof.
  unfold resumeSession, try_catch, bind, findByID, new_Date, update_session, ret.
  destruct req_user as [u|]; [|eexists; simpl; repeat split; eauto].
  destruct (faults p FindSessionByID);
    [eexists; simpl; repeat split; eauto|].
  destruct (lookup_session i (sessions p)) as [s|];
    [|eexists; simpl; repeat split; eauto].
  case_bool_decide; simpl; [|eexists; simpl; repeat split; eauto].
  case_bool_decide; simpl; [|eexists; simpl; repeat split; eauto; done].
  destruct (faults p UpdateSession);
    [eexists; simpl; repeat split; eauto|].
  destruct (lookup_session i (sessions p));
    eexists; simpl; repeat split; eauto; done.
Qed.

End WorkSessionsMore.

(** ** Work sessions: what the hooks, the middleware and the handlers never do *)

Section SessionFacts.
Import Js Sessions.

(** X22. The middleware never fails the request and touches at most one session:
    whatever the persistence layer does, it ends normally; for a request
    without a user it changes nothing; for a user's request every session
    other than that user's first active one is as before, and no session is
    added or removed. *)
Theorem trackActivity_is_contained (req_user : option User) (p : Payload) :
  fst (trackActivity req_user p) = Ok tt
  /\ (req_user = None -> snd (trackActivity req_user p) = p)
  /\ (forall u, req_user = Some u ->
        match first_active_session (u_id u) (sessions p) with
        | Some s => Server.touches_only (id s) p (snd (trackActivity req_user p))
        | None => sessions (snd (trackActivity req_user p)) = sessions p
        end).
Proof.
  destruct req_user as [u|]; [|by repeat split].
  destruct (trackActivity_frame u p) as [H1 H2].
  split; [done|]. split; [done|].
  by intros u' [= <-].
Qed.

Lemma trackActivity_is_contained_witness :
  let p := mkPayload [seeded_session paused 0] [owner] 5000
                     (fun _ => Some "database is down") [] in
  fst (trackActivity (Some owner) p) = Ok tt
  /\ sessions (snd (trackActivity (Some owner) p)) = sessions p.
Proof.
  intros p.
  destruct (trackActivity_is_contained (Some owner) p) as (H1 & _ & H3).
  split; [exact H1|]. apply (H3 owner eq_refl).
Defined.

(** X23. On a create by an authenticated user the hook decides the owner, the
    start and the last activity itself, whatever the data says: the owner is
    the requesting user and both times are the current time; so a session
    created as completed has a duration of zero minutes. *)
Theorem session_create_is_stamped_by_the_server (data : SessionData)
  (u : User) (now : Z) :
  let data' := beforeChange data (Some u) create now in
  d_user data' = Some (u_id u)
  /\ d_startedAt data' = DateOf now
  /\ d_lastActive data' = DateOf now
  /\ d_status data' = d_status data
  /\ d_context data' = d_context data
  /\ (d_status data = Some completed ->
      truthy (d_completedAt data) = false ->
      d_completedAt data' = DateOf now
      /\ d_durationMinutes data' = Some (Num 0)).
Proof.
  destruct data as [du ds dsa dla dca ddm dcx dw dp dt dn]. unfold beforeChange. simpl.
  case_bool_decide as Hst; simpl.
  - destruct (truthy dca) eqn:Hca; simpl; split_and!; try done.
    intros _ _. unfold duration_minutes. simpl. by rewrite Z.sub_diag.
  - split_and!; done.
Qed.

Lemma session_create_is_stamped_by_the_server_witness :
  let data := mkData (Some "u2") (Some completed) (DateOf 0) Undefined
                     Undefined None None None None None None in
  d_user (beforeChange data (Some owner) create 7200000) = Some "u1"
  /\ d_durationMinutes (beforeChange data (Some owner) create 7200000)
     = Some (Num 0).
Proof.
  intros data.
  destruct (session_create_is_stamped_by_the_server data owner 7200000)
    as (Hu & _ & _ & _ & _ & Hd).
  split; [exact Hu|]. by destruct (Hd eq_refl eq_refl) as [_ ->].
Defined.

(** X24. On an update the hook changes [lastActive] and nothing else, unless the
    data sets the status to completed and carries no [completedAt]; in
    particular a [completedAt] supplied with the data is kept and no
    duration is computed for it. *)
Theorem session_update_only_refreshes_lastActive (data : SessionData)
  (req_user : option User) (now : Z) :
  d_status data <> Some completed \/ truthy (d_completedAt data) = true ->
  beforeChange data req_user update now = set_lastActive (DateOf now) data.
Proof.
  intros H. unfold beforeChange. simpl.
  destruct H as [Hst|Hca].
  - by rewrite bool_decide_eq_false_2.
  - rewrite Hca. by rewrite andb_false_r.
Qed.

Lemma session_update_only_refreshes_lastActive_witness :
  let data := mkData None (Some completed) (DateOf 0) Undefined (DateOf 60000)
                     None None None None None None in
  d_durationMinutes (beforeChange data None update 600000) = None
  /\ d_completedAt (beforeChange data None update 600000) = DateOf 60000.
Proof.
  intros data.
  rewrite (session_update_only_refreshes_lastActive data None 600000)
    by (right; reflexivity).
  split; reflexivity.
Defined.

(** X25. Every update of a stored session that goes through leaves the
    session with [lastActive] at the current time (a [lastActive] in the
    data is overridden) and with its id; its owner, status, start, context,
    links and notes are the data's where the data names them and the stored
    ones where it does not; unless the session ends completed without a
    [completedAt] given, the same holds of [completedAt] and
    [durationMinutes]; no other session and no user is touched. *)
Theorem update_session_refreshes_lastActive (i : string) (data : SessionData)
  (p : Payload) (doc : Session) :
  faults p UpdateSession = None ->
  lookup_session i (sessions p) = Some doc ->
  exists doc' p',
    update_session i data p = (Ok doc', p')
    /\ lookup_session i (sessions p') = Some doc'
    /\ lastActive doc' = DateOf (clock p)
    /\ id doc' = id doc
    /\ user doc' = merge (user doc) (d_user data)
    /\ status doc' = merge (status doc) (d_status data)
    /\ startedAt doc' = merge_date (startedAt doc) (d_startedAt data)
    /\ context doc' = merge_option (context doc) (d_context data)
    /\ workspace doc' = merge (workspace doc) (d_workspace data)
    /\ project doc' = merge (project doc) (d_project data)
    /\ task doc' = merge (task doc) (d_task data)
    /\ notes doc' = merge (notes doc) (d_notes data)
    /\ (status doc' <> completed
        \/ truthy (merge_date (completedAt doc) (d_completedAt data)) = true ->
        completedAt doc' = merge_date (completedAt doc) (d_completedAt data)
        /\ durationMinutes doc'
           = merge_option (durationMinutes doc) (d_durationMinutes data))
    /\ Server.touches_only i p p'
    /\ users p' = users p.
Proof.
  intros Hf Hl.
  pose proof (update_session_touches_only i data p) as [Ht Hu].
  pose proof (lookup_session_id _ _ _ Hl) as Hid.
  destruct (beforeChange_update_keeps (merge_stored doc data) None (clock p))
    as (Hk1 & Hk2 & Hk3 & Hk4 & Hk5 & Hk6 & Hk7 & Hk8 & Hk9).
  rewrite (update_session_ok i data p doc Hf Hl) in *. cbn zeta in *.
  cbn [snd] in Ht, Hu.
  set (doc' := apply_data doc
                 (beforeChange (merge_stored doc data) None update (clock p)))
    in *.
  exists doc', (with_sessions (replace_session i doc' (sessions p)) p).
  split; [reflexivity|].
  split; [cbn [sessions with_sessions]; by apply (lookup_replace_eq _ _ doc)|].
  split_and!; try done;
    subst doc'; unfold apply_data;
    cbn [id user status startedAt lastActive context workspace project task
         notes completedAt durationMinutes];
    rewrite ?Hk1, ?Hk2, ?Hk3, ?Hk4, ?Hk5, ?Hk6, ?Hk7, ?Hk8, ?Hk9;
    cbn [merge_stored d_user d_status d_startedAt d_lastActive d_context
         d_workspace d_project d_task d_notes merge merge_date];
    rewrite ?merge_date_idem, ?merge_option_idem; try done.
  intros Hplain.
  rewrite beforeChange_update_plain by (cbn; destruct Hplain; [left; congruence|by right]).
  cbn. by rewrite merge_date_idem, merge_option_idem.
Qed.

Lemma update_session_refreshes_lastActive_witness :
  exists doc' p',
    update_session "s1"
      (mkData None (Some paused) Undefined (DateOf 1) Undefined None None
              None None (Some (Some "t3")) None)
      (seeded active 1000 5000) = (Ok doc', p')
    /\ lastActive doc' = DateOf 5000
    /\ status doc' = paused
    /\ task doc' = Some "t3"
    /\ project doc' = Some "p1".
Proof.
  destruct (update_session_refreshes_lastActive "s1"
              (mkData None (Some paused) Undefined (DateOf 1) Undefined None None
                      None None (Some (Some "t3")) None)
              (seeded active 1000 5000) (seeded_session active 1000)
              eq_refl eq_refl)
    as (doc' & p' & Hrun & _ & Hla & _ & _ & Hst & _ & _ & _ & Hp & Ht & _).
  by exists doc', p'.
Defined.

(** X26. Both endpoints always answer, with 200, 401, 403 or 500, and never
    throw.  Unless [save-state] answers 200 the database is exactly as it
    was before the request.  A request to resume passes the middleware
    first, which does its own writing; unless the answer is 200 the handler
    adds nothing to it: the database is as the middleware left it. *)
Theorem handlers_always_answer (req_user : option User) (i context : string)
  (p : Payload) :
  (exists resp,
      fst (saveState req_user i context p) = Ok resp
      /\ (code resp = 200 \/ code resp = 401 \/ code resp = 403 \/ code resp = 500)%nat
      /\ (code resp <> 200%nat -> snd (saveState req_user i context p) = p))
  /\ (exists resp,
        fst (Server.GET_resume_session req_user i p) = Ok resp
        /\ (code resp = 200 \/ code resp = 401 \/ code resp = 403 \/ code resp = 500)%nat
        /\ (code resp <> 200%nat ->
            snd (Server.GET_resume_session req_user i p)
            = snd (trackActivity req_user p))
        /\ (req_user = None ->
            Server.GET_resume_session req_user i p
            = (Ok (mkResponse 401 (error_body "Unauthorized")), p))).
Proof.
  split.
  - unfold saveState, try_catch, bind, findByID, new_Date, update_session, ret.
    destruct req_user as [u|]; [|eexists; simpl; repeat split; eauto].
    destruct (faults p FindSessionByID);
      [eexists; simpl; repeat split; eauto|].
    destruct (lookup_session i (sessions p)) as [s|];
      [|eexists; simpl; repeat split; eauto].
    case_bool_decide; simpl; [|eexists; simpl; repeat split; eauto].
    destruct (faults p UpdateSession);
      [eexists; simpl; repeat split; eauto|].
    destruct (lookup_session i (sessions p));
      eexists; simpl; repeat split; eauto; done.
  - assert (Hmw : fst (trackActivity req_user p) = Ok tt).
    { destruct req_user as [u|]; [|done]. apply trackActivity_frame. }
    unfold Server.GET_resume_session, bind.
    destruct (trackActivity req_user p) as [r p1] eqn:Hrun.
    simpl in Hmw. subst r. cbn [snd].
    destruct (resumeSession_answers req_user i p1) as (resp & H1 & H2 & H3).
    exists resp. split; [exact H1|]. split; [exact H2|]. split; [exact H3|].
    intros ->. simpl in Hrun. by injection Hrun as <-.
Qed.

(** X27. A request to resume a completed session of one's own answers 200
    with the session and leaves the session exactly as it was: the
    middleware writes to the caller's first active session, which a
    completed one is not, and the handler writes nothing, so a completed
    session is not reopened. *)
Theorem resume_request_leaves_completed_sessions (p : Payload) (u : User)
  (i : string) (s : Session) :
  faults p FindSessionByID = None ->
  NoDup (map id (sessions p)) ->
  lookup_session i (sessions p) = Some s ->
  user s = u_id u ->
  status s = completed ->
  exists p',
    Server.GET_resume_session (Some u) i p
    = (Ok (mkResponse 200 (session_body s)), p')
    /\ p' = snd (trackActivity (Some u) p)
    /\ lookup_session i (sessions p') = Some s.
Proof.
  intros Hf Hnd Hl Hown Hst.
  destruct (trackActivity_frame u p) as [Hok Hframe].
  pose proof (trackActivity_faults (Some u) p) as Hfaults.
  unfold Server.GET_resume_session, bind.
  destruct (trackActivity (Some u) p) as [r p1]. simpl in Hok, Hframe, Hfaults.
  subst r.
  assert (Hl1 : lookup_session i (sessions p1) = Some s).
  { destruct (first_active_session (u_id u) (sessions p)) as [a|] eqn:Hfirst;
      [|by rewrite Hframe].
    destruct Hframe as (_ & _ & _ & Hother).
    rewrite Hother; [done|].
    intros ->.
    apply first_active_session_docs in Hfirst as (_ & Hin & _ & Hact).
    pose proof (lookup_session_NoDup _ _ Hnd Hin) as Hla.
    rewrite Hl in Hla. injection Hla as ->. congruence. }
  exists p1.
  unfold resumeSession, try_catch, bind, findByID.
  rewrite Hfaults, Hf, Hl1.
  rewrite bool_decide_eq_true_2 by done. simpl.
  rewrite bool_decide_eq_false_2 by congruence. done.
Qed.

Lemma resume_request_leaves_completed_sessions_witness :
  exists p',
    Server.GET_resume_session (Some owner) "s1" (seeded completed 1000 5000)
    = (Ok (mkResponse 200 (session_body (seeded_session completed 1000))), p')
    /\ lookup_session "s1" (sessions p') = Some (seeded_session completed 1000).
Proof.
  destruct (resume_request_leaves_completed_sessions
              (seeded completed 1000 5000) owner "s1"
              (seeded_session completed 1000)
              eq_refl (NoDup_singleton _) eq_refl eq_refl eq_refl)
    as (p' & Hrun & _ & Hl).
  by exists p'.
Defined.

(** X28. Of two saves by the owner the later one wins: the session holds the
    second context and the time of the second save, and its id, owner,
    status, start, links and notes as before the two.  On a session that is
    not completed, or has its [completedAt], the earlier save leaves no
    trace: the sessions are what the second save alone would have made
    them.  On a completed session without [completedAt] the first save
    stamps it, and the stamp stays: [completedAt] is the time of the first
    save. *)
Theorem saveState_last_write_wins (p : Payload) (u : User)
  (i context1 context2 : string) (s : Session) (later : Z) :
  faults p FindSessionByID = None ->
  faults p UpdateSession = None ->
  lookup_session i (sessions p) = Some s ->
  user s = u_id u ->
  let p1 := snd (saveState (Some u) i context1 p) in
  let p2 := snd (saveState (Some u) i context2 (Server.at_time later p1)) in
  exists s2,
    lookup_session i (sessions p2) = Some s2
    /\ context s2 = Some context2
    /\ lastActive s2 = DateOf later
    /\ id s2 = id s /\ user s2 = user s /\ status s2 = status s
    /\ startedAt s2 = startedAt s
    /\ workspace s2 = workspace s /\ project s2 = project s
    /\ task s2 = task s /\ notes s2 = notes s
    /\ (status s <> completed \/ truthy (completedAt s) = true ->
        s2 = mkSession (id s) (user s) (workspace s) (project s) (task s)
                       (status s) (notes s) (startedAt s) (DateOf later)
                       (completedAt s) (durationMinutes s) (Some context2)
        /\ sessions p2
           = sessions (snd (saveState (Some u) i context2
                              (Server.at_time later p))))
    /\ (status s = completed -> truthy (completedAt s) = false ->
        completedAt s2 = DateOf (clock p)).
Proof.
  intros Hf Hu Hl Hown p1 p2. subst p1 p2.
  pose proof (lookup_session_id _ _ _ Hl) as Hid.
  rewrite (saveState_owner_effect p u i context1 s Hf Hu Hl Hown).
  cbn [snd].
  destruct (saved_session s context1 (clock p))
    as (_ & _ & A3 & A4 & A5 & A6 & A7 & A8 & A9 & A10 & A11 & A12).
  cbn zeta in *.
  set (s1 := apply_data s _) in *.
  set (p1 := Server.at_time later
               (with_sessions (replace_session i s1 (sessions p)) p)).
  assert (Hl1 : lookup_session i (sessions p1) = Some s1).
  { apply (lookup_replace_eq i _ s); [done|congruence]. }
  assert (Hown1 : user s1 = u_id u) by congruence.
  rewrite (saveState_owner_effect p1 u i context2 s1 Hf Hu Hl1 Hown1).
  rewrite (saveState_owner_effect (Server.at_time later p) u i context2 s
             Hf Hu Hl Hown).
  cbn [snd].
  destruct (saved_session s1 context2 later)
    as (B1 & B2 & B3 & B4 & B5 & B6 & B7 & B8 & B9 & B10 & B11 & _).
  destruct (saved_session s context2 later)
    as (_ & _ & _ & _ & _ & _ & _ & _ & _ & _ & C11 & _).
  cbn zeta in *.
  change (clock p1) with later.
  change (clock (Server.at_time later p)) with later.
  set (s2 := apply_data s1 _) in *.
  exists s2.
  split.
  { cbn [sessions with_sessions p1 Server.at_time].
    rewrite replace_replace by congruence.
    apply (lookup_replace_eq i _ s); [done|congruence]. }
  split_and!; try congruence.
  - intros Hplain.
    assert (Hplain1 : status s1 <> completed \/ truthy (completedAt s1) = true).
    { rewrite (A11 Hplain). exact Hplain. }
    split.
    + rewrite (B11 Hplain1), (A11 Hplain). reflexivity.
    + cbn [sessions with_sessions p1 Server.at_time].
      rewrite replace_replace by congruence.
      f_equal. rewrite (C11 Hplain).
      rewrite (B11 Hplain1), (A11 Hplain). reflexivity.
  - intros Hst Hca.
    assert (Hplain1 : status s1 <> completed \/ truthy (completedAt s1) = true).
    { right. by rewrite (A12 Hst Hca). }
    rewrite (B11 Hplain1). simpl. by apply A12.
Qed.

Lemma saveState_last_write_wins_witness :
  let p := seeded completed 1000 5000 in
  let p1 := snd (saveState (Some owner) "s1" "{ step: 1 }" p) in
  let p2 := snd (saveState (Some owner) "s1" "{ step: 2 }" (Server.at_time 6000 p1)) in
  exists s2,
    lookup_session "s1" (sessions p2) = Some s2
    /\ context s2 = Some "{ step: 2 }"
    /\ lastActive s2 = DateOf 6000
    /\ completedAt s2 = DateOf 5000.
Proof.
  intros p p1 p2.
  destruct (saveState_last_write_wins p owner "s1" "{ step: 1 }" "{ step: 2 }"
              (seeded_session completed 1000) 6000
              eq_refl eq_refl eq_refl eq_refl)
    as (s2 & Hl & Hcx & Hla & _ & _ & _ & _ & _ & _ & _ & _ & _ & Hca).
  exists s2. split; [exact Hl|]. split; [exact Hcx|]. split; [exact Hla|].
  apply Hca; reflexivity.
Defined.

(** X29. A request to resume one's own first active session passes the
    middleware first: a session left idle for more than the timeout is
    paused by the middleware and made active again by the handler within the
    same request, so it ends active with [lastActive] at the current time
    either way; the body of the answer is the document as the handler read
    it, paused if the session had been idle too long. *)
Theorem resume_request_ends_active (p : Payload) (u : User) (s : Session)
  (t : Z) :
  (forall c, faults p c = None) ->
  is_Some (lookup_user (u_id u) (users p)) ->
  NoDup (map id (sessions p)) ->
  first_active_session (u_id u) (sessions p) = Some s ->
  lastActive s = DateOf t ->
  exists read p',
    Server.GET_resume_session (Some u) (id s) p
    = (Ok (mkResponse 200 (session_body read)), p')
    /\ status read
       = (if bool_decide (ACTIVITY_TIMEOUT < clock p - t) then paused else active)
    /\ lastActive read = DateOf (clock p)
    /\ lookup_session (id s) (sessions p')
       = Some (mkSession (id s) (user s) (workspace s) (project s) (task s)
                         active (notes s) (startedAt s) (DateOf (clock p))
                         (completedAt s) (durationMinutes s) (context s)).
Proof.
  intros Hnf Huser Hnd Hfirst Hlast.
  destruct (trackActivity_effect p u s t Hnf Huser Hnd Hfirst Hlast)
    as (p1 & Hrun & Hs1 & Hf1 & Hc1 & _).
  apply first_active_session_docs in Hfirst as (_ & Hin & Hown & Hstatus).
  pose proof (lookup_session_NoDup _ _ Hnd Hin) as Hl.
  assert (Hl1 : lookup_session (id s) (sessions p1)
                = Some (mkSession (id s) (user s) (workspace s) (project s)
                          (task s)
                          (if bool_decide (ACTIVITY_TIMEOUT < clock p - t)
                           then paused else active)
                          (notes s) (startedAt s) (DateOf (clock p))
                          (completedAt s) (durationMinutes s) (context s)))
    by (rewrite Hs1; by apply (lookup_replace_eq _ _ s)).
  unfold Server.GET_resume_session, bind. rewrite Hrun.
  case_bool_decide as Hlate.
  - unfold resumeSession, try_catch, bind, findByID, new_Date.
    rewrite Hf1, Hnf, Hl1. simpl.
    rewrite bool_decide_eq_true_2 by done. simpl.
    erewrite update_session_plain;
      [|by rewrite Hf1|exact Hl1|left; simpl; discriminate]. simpl.
    eexists _, _. split; [reflexivity|]. simpl. rewrite Hc1.
    split; [done|]. split; [done|].
    by apply (lookup_replace_eq _ _ _ _ Hl1).
  - unfold resumeSession, try_catch, bind, findByID.
    rewrite Hf1, Hnf, Hl1. simpl.
    rewrite bool_decide_eq_true_2 by done. simpl.
    eexists _, _. split; [reflexivity|]. simpl. done.
Qed.

Lemma resume_request_ends_active_witness :
  exists read p',
    Server.GET_resume_session (Some owner) "s1" (seeded active 0 3600000)
    = (Ok (mkResponse 200 (session_body read)), p')
    /\ status read = paused
    /\ (status <$> lookup_session "s1" (sessions p')) = Some active.
Proof.
  destruct (resume_request_ends_active (seeded active 0 3600000) owner
              (seeded_session active 0) 0 (fun _ => eq_refl)
              (ex_intro _ owner eq_refl) (NoDup_singleton _) eq_refl eq_refl)
    as (read & p' & Hrun & Hst & _ & Hl).
  exists read, p'. split; [exact Hrun|]. split; [exact Hst|].
  change (id (seeded_session active 0)) with "s1" in Hl. by rewrite Hl.
Defined.



End SessionFacts.
